(** * WWFC: the LoveAdmin / FA Club Portal reconciler

    A shallow embedding of [scripts/loveadmin_fa_reconcile.py] (function
    [merge_datasets]) and of [scripts/loveadmin_fa_reconcile_gui.py]
    (handler [validate_and_merge]), together with the part of pandas the two
    scripts call: [read_excel], [rename], column assignment, [merge] with
    [how="outer"], [fillna], column selection and [to_excel].

    Data frames are a list of column labels and a list of rows; a file system
    maps paths to worksheets; the scripts run in a small error-and-state monad
    that threads the file system and the trace of what the script did (log
    lines, file reads and writes, dialogs).

    Scope of the pandas model: labels, rows and the relational semantics of
    the operations.  Cells are compared structurally (an empty cell matches an
    empty cell in a join, as in pandas); dtype inference is outside the model,
    and so is the order in which an outer join lists its rows: every statement
    below is about which rows occur and how often. *)

From Stdlib Require Import ZArith Lia Ascii String.
From stdpp Require Import gmap strings list pretty.

(** ** Cells, frames, worksheets *)

Inductive cell :=
| NaN
| Str (s : string)
| Int (z : Z)
| Bool (b : bool).

#[global] Instance cell_eq_dec : EqDecision cell.
Proof. solve_decision. Defined.

Record DataFrame := mkDataFrame {
  columns : list string;
  rows : list (list cell)
}.

#[global] Instance DataFrame_eq_dec : EqDecision DataFrame.
Proof. solve_decision. Defined.

(** A worksheet as the reader sees it: a grid of cells, first row first. *)
Abbreviation sheet := (list (list cell)).

(** Every row has one cell per column. *)
Definition rectangular (df : DataFrame) : Prop :=
  Forall (λ r, length r = length (columns df)) (rows df).

(** ** Exceptions and results *)

Inductive exn :=
| FileNotFoundError (path : string)
| KeyError (label : string)
| KeyErrorNotInIndex (missing : list string)
| ValueError (msg : string)
| MergeError (labels : list string)
| NameError (name : string).

#[global] Instance exn_eq_dec : EqDecision exn.
Proof. solve_decision. Defined.

Inductive result (A : Type) :=
| Ok (a : A)
| Raise (e : exn).
Arguments Ok {A} a.
Arguments Raise {A} e.

#[global] Instance result_ret : MRet result := λ A a, Ok a.
#[global] Instance result_bind : MBind result := λ A B f m,
  match m with Ok a => f a | Raise e => Raise e end.

(** ** The pandas operations the scripts use *)

Module pd.

(** [label in index] *)
Definition has_label (cols : list string) (c : string) : bool :=
  bool_decide (c ∈ cols).

Fixpoint index_of (c : string) (cols : list string) : option nat :=
  match cols with
  | [] => None
  | c' :: cols' => if bool_decide (c' = c) then Some 0 else S <$> index_of c cols'
  end.

(** The value a row holds under a label (the first column so labelled). *)
Definition at_label (cols : list string) (row : list cell) (c : string) : cell :=
  match index_of c cols with
  | Some i => default NaN (row !! i)
  | None => NaN
  end.

(** Apply [f] to the cells of [row] that sit under [label]. *)
Fixpoint map_at_label (label : string) (f : cell → cell)
    (cols : list string) (row : list cell) : list cell :=
  match cols, row with
  | c :: cols', v :: row' =>
      (if bool_decide (c = label) then f v else v) :: map_at_label label f cols' row'
  | _, _ => row
  end.

(** *** read_excel, to_excel *)

Definition header_label (i : nat) (c : cell) : string :=
  match c with
  | Str s => s
  | NaN => "Unnamed: " +:+ pretty i
  | Int z => pretty z
  | Bool true => "True"
  | Bool false => "False"
  end.

Definition fit (n : nat) (row : list cell) : list cell :=
  take n (row ++ replicate n NaN).

(** [pd.read_excel(path, skiprows=n)] on the worksheet stored at [path]:
    [n] leading rows are dropped, the next row is the header, the rest is
    data.  A header cell that is not text is labelled by its printed form
    and an empty one is "Unnamed: i".  pandas also renames a repeated
    header name (X, X.1, ...); the model keeps header names as they are. *)
Definition read_sheet (skiprows : nat) (s : sheet) : DataFrame :=
  match drop skiprows s with
  | [] => mkDataFrame [] []
  | header :: data =>
      mkDataFrame (imap header_label header) (fit (length header) <$> data)
  end.

(** [df.to_excel(path, index=False)]: the header row, then the data. *)
Definition to_sheet (df : DataFrame) : sheet :=
  (Str <$> columns df) :: rows df.

(** *** rename, column assignment, fillna, selection *)

Definition rename_label (mapping : list (string * string)) (c : string) : string :=
  match list_find (λ p, p.1 = c) mapping with
  | Some (_, p) => p.2
  | None => c
  end.

(** [df.rename(columns=mapping)]; labels the mapping does not name stay. *)
Definition rename (mapping : list (string * string)) (df : DataFrame) : DataFrame :=
  mkDataFrame (rename_label mapping <$> columns df) (rows df).

(** [df[label] = v] for a scalar [v]: overwrite the column if the label
    exists, append a new last column otherwise. *)
Definition setitem (df : DataFrame) (label : string) (v : cell) : DataFrame :=
  if has_label (columns df) label
  then mkDataFrame (columns df) (map_at_label label (λ _, v) (columns df) <$> rows df)
  else mkDataFrame (columns df ++ [label]) ((λ r, r ++ [v]) <$> rows df).

Definition fill (v : cell) (x : cell) : cell :=
  match x with NaN => v | _ => x end.

(** [df[label] = df[label].fillna(v)]; [df[label]] raises KeyError when
    the label is absent. *)
Definition fillna_column (df : DataFrame) (label : string) (v : cell) : result DataFrame :=
  if has_label (columns df) label
  then Ok (mkDataFrame (columns df) (map_at_label label (fill v) (columns df) <$> rows df))
  else Raise (KeyError label).

(** The cells of a row under one label (all of them, if it is repeated). *)
Definition select (cols : list string) (row : list cell) (label : string) : list cell :=
  (filter (λ p, p.1 = label) (zip cols row)).*2.

(** [df[labels]] for a list of labels. *)
Definition getitem_list (df : DataFrame) (labels : list string) : result DataFrame :=
  match filter (λ c, c ∉ columns df) labels with
  | [] => Ok (mkDataFrame
                (labels ≫= λ c, filter (λ c', c' = c) (columns df))
                ((λ r, labels ≫= select (columns df) r) <$> rows df))
  | missing => Raise (KeyErrorNotInIndex missing)
  end.

(** *** merge *)

(** [df._get_label_or_level_values(key)] as far as it can fail. *)
Definition check_label (cols : list string) (key : string) : result unit :=
  if negb (has_label cols key) then Raise (KeyError key)
  else if bool_decide (1 < length (filter (λ c, c = key) cols))
  then Raise (ValueError ("The column label '" +:+ key +:+ "' is not unique."))
  else Ok ().

(** The join keys are looked up one by one, in the right frame and then
    in the left one. *)
Fixpoint get_merge_keys (lcols rcols : list string) (on : list string) : result unit :=
  match on with
  | [] => Ok ()
  | k :: on' =>
      _ ← check_label rcols k;
      _ ← check_label lcols k;
      get_merge_keys lcols rcols on'
  end.

Definition lsuffix : string := "_x".
Definition rsuffix : string := "_y".

Definition renamer (to_rename : list string) (suffix : string) (x : string) : string :=
  if has_label to_rename x then x +:+ suffix else x.

(** [Index.duplicated()]: true at every occurrence but the first. *)
Fixpoint duplicated_from (seen : list string) (l : list string) : list bool :=
  match l with
  | [] => []
  | c :: l' => has_label seen c :: duplicated_from (c :: seen) l'
  end.
Definition duplicated : list string → list bool := duplicated_from [].

(** Labels that the suffixes made collide: repeated after renaming but
    not before. *)
Definition suffix_dups (labels orig : list string) : list string :=
  (filter (λ p, p.2.1 = true ∧ p.2.2 = false)
          (zip labels (zip (duplicated labels) (duplicated orig)))).*1.

Definition items_overlap_with_suffix (left right : list string)
    : result (list string * list string) :=
  let to_rename := filter (λ c, c ∈ right) left in
  let llabels := renamer to_rename lsuffix <$> left in
  let rlabels := renamer to_rename rsuffix <$> right in
  match suffix_dups llabels left ++ suffix_dups rlabels right with
  | [] => Ok (llabels, rlabels)
  | dups => Raise (MergeError dups)
  end.

Definition key_of (cols on : list string) (row : list cell) : list cell :=
  at_label cols row <$> on.

(** Drop the cells of a row that sit under one of the labels [on]. *)
Definition drop_labels (on cols : list string) (row : list cell) : list cell :=
  (filter (λ p, p.1 ∉ on) (zip cols row)).*2.

(** The left part of a row that only the right frame has: the key values
    under the key labels, nothing elsewhere. *)
Definition left_blank (lcols rcols on : list string) (r : list cell) : list cell :=
  (λ c, if has_label on c then at_label rcols r c else NaN) <$> lcols.

(** The rows a left row contributes: itself beside every right row with
    its key, or itself beside empty cells when there is none. *)
Definition left_block (lcols rcols on : list string) (rrows : list (list cell))
    (width : nat) (l : list cell) : list (list cell) :=
  match filter (λ r, key_of rcols on r = key_of lcols on l) rrows with
  | [] => [l ++ replicate width NaN]
  | rs => (λ r, l ++ drop_labels on rcols r) <$> rs
  end.

(** [pd.merge(left, right, on=on, how="outer")] *)
Definition merge (left right : DataFrame) (on : list string) : result DataFrame :=
  _ ← get_merge_keys (columns left) (columns right) on;
  let rcols' := filter (λ c, c ∉ on) (columns right) in
  labels ← items_overlap_with_suffix (columns left) rcols';
  let lkey := key_of (columns left) on in
  let rkey := key_of (columns right) on in
  Ok (mkDataFrame
        (labels.1 ++ labels.2)
        ((rows left ≫= left_block (columns left) (columns right) on (rows right)
                       (length labels.2))
         ++ ((λ r, left_blank (columns left) (columns right) on r
                   ++ drop_labels on (columns right) r)
             <$> filter (λ r, Forall (λ l, lkey l ≠ rkey r) (rows left)) (rows right)))).

End pd.


(** ** The world the scripts run in *)

Inductive level := DEBUG | INFO | ERROR.

(** What a log line or a dialog says: a fixed text, or an f-string that
    ends in the exception caught. *)
Inductive message :=
| Text (s : string)
| WithExn (prefix : string) (e : exn).

Inductive event :=
| Log (lvl : level) (m : message)
| ReadExcel (path : string)
| ToExcel (path : string)
| ShowError (title : string) (m : message)
| ShowInfo (title : string) (m : message).

#[global] Instance level_eq_dec : EqDecision level.
Proof. solve_decision. Defined.
#[global] Instance message_eq_dec : EqDecision message.
Proof. solve_decision. Defined.
#[global] Instance event_eq_dec : EqDecision event.
Proof. solve_decision. Defined.

Record world := mkWorld {
  files : gmap string sheet;
  trace : list event
}.

(** A script: it may raise, and it changes the world either way. *)
Definition prog (A : Type) : Type := world → result A * world.

#[global] Instance prog_ret : MRet prog := λ A a w, (Ok a, w).
#[global] Instance prog_bind : MBind prog := λ A B f m w,
  match m w with
  | (Ok a, w') => f a w'
  | (Raise e, w') => (Raise e, w')
  end.

Definition emit (ev : event) : prog unit :=
  λ w, (Ok (), mkWorld (files w) (trace w ++ [ev])).

Definition raise {A} (e : exn) : prog A := λ w, (Raise e, w).

(** A pandas call that touches no file: its exception is raised here. *)
Definition lift {A} (r : result A) : prog A := λ w, (r, w).

(** [try: body except Exception as e: handler(e)] *)
Definition try_except {A} (body : prog A) (handler : exn → prog A) : prog A :=
  λ w, match body w with
       | (Ok a, w') => (Ok a, w')
       | (Raise e, w') => handler e w'
       end.

Definition logger_info (s : string) : prog unit := emit (Log INFO (Text s)).
Definition logger_debug (s : string) : prog unit := emit (Log DEBUG (Text s)).
Definition logger_error (prefix : string) (e : exn) : prog unit :=
  emit (Log ERROR (WithExn prefix e)).

(** [pd.read_excel(path, skiprows=n)] *)
Definition read_excel (path : string) (skiprows : nat) : prog DataFrame :=
  λ w, match files w !! path with
       | Some s => (Ok (pd.read_sheet skiprows s),
                    mkWorld (files w) (trace w ++ [ReadExcel path]))
       | None => (Raise (FileNotFoundError path), w)
       end.

(** [df.to_excel(path, index=False)]: creates or overwrites the file. *)
Definition to_excel (df : DataFrame) (path : string) : prog unit :=
  λ w, (Ok (), mkWorld (<[path := pd.to_sheet df]> (files w)) (trace w ++ [ToExcel path])).

(** ** scripts/loveadmin_fa_reconcile.py *)

Definition key_columns : list string := ["First names"; "Surname"].

Definition standard_names : list (string * string) :=
  [("Last name", "Surname"); ("First name", "First names")].

Definition in_loveadmin : string := "In_LoveAdmin".
Definition in_fa_club_portal : string := "In_FA_Club_Portal".

Definition merge_datasets (loveadmin_path fa_club_portal_path output_path : string)
    : prog unit :=
  try_except
    (logger_info "Loading LoveAdmin data...";;
     loveadmin_data ← read_excel loveadmin_path 0;
     logger_info "Loading FA Club Portal data...";;
     fa_club_portal_data ← read_excel fa_club_portal_path 6;
     logger_debug "Renaming columns for standardisation...";;
     let loveadmin_data := pd.rename standard_names loveadmin_data in
     logger_debug "Adding presence flags...";;
     let loveadmin_data := pd.setitem loveadmin_data in_loveadmin (Bool true) in
     let fa_club_portal_data := pd.setitem fa_club_portal_data in_fa_club_portal (Bool true) in
     logger_info "Merging datasets...";;
     merged_data ← lift (pd.merge loveadmin_data fa_club_portal_data key_columns);
     logger_debug "Filling NaN values for presence flags...";;
     merged_data ← lift (pd.fillna_column merged_data in_loveadmin (Bool false));
     merged_data ← lift (pd.fillna_column merged_data in_fa_club_portal (Bool false));
     logger_info ("Saving merged data to " +:+ output_path +:+ "...");;
     to_excel merged_data output_path;;
     logger_info "Merge process completed successfully.")
    (λ e,
     logger_error "An error occurred during the merge process: " e;;
     raise e).

(** ** scripts/loveadmin_fa_reconcile_gui.py *)

(** The three path fields of the window. *)
Record form := mkForm {
  loveadmin_file_var : string;
  fa_club_portal_file_var : string;
  output_file_var : string
}.

(** Python's [not s] for a string. *)
Definition py_not (s : string) : bool := bool_decide (s = EmptyString).

Definition preferred_columns : list string :=
  ["First names"; "Surname"; in_loveadmin; in_fa_club_portal; "Team"; "Active mandates"].

(** [[col for col in cols if col not in columns_order]], where
    [columns_order] is the local variable of the handler as it stands while
    the comprehension runs: [None] is a local that has no value yet, and
    reading it raises NameError. *)
Fixpoint remaining_columns (columns_order : option (list string)) (cols : list string)
    : result (list string) :=
  match cols with
  | [] => Ok []
  | col :: cols' =>
      match columns_order with
      | None => Raise (NameError "columns_order")
      | Some order =>
          rest ← remaining_columns columns_order cols';
          Ok (if bool_decide (col ∈ order) then rest else col :: rest)
      end
  end.

Definition validate_and_merge (f : form) : prog unit :=
  let loveadmin_file := loveadmin_file_var f in
  let fa_club_portal_file := fa_club_portal_file_var f in
  let output_file := output_file_var f in
  if py_not loveadmin_file || py_not fa_club_portal_file || py_not output_file
  then emit (ShowError "Error" (Text "Please select all required files."))
  else
  try_except
    (logger_info "Loading LoveAdmin data...";;
     loveadmin_data ← read_excel loveadmin_file 0;
     logger_info "Loading FA Club Portal data...";;
     fa_club_portal_data ← read_excel fa_club_portal_file 6;
     (if negb (pd.has_label (columns loveadmin_data) "Last name")
         || negb (pd.has_label (columns loveadmin_data) "First name")
      then raise (ValueError
        "LoveAdmin file does not contain required columns: 'Last name', 'First name'.")
      else mret ());;
     (if negb (pd.has_label (columns fa_club_portal_data) "First names")
         || negb (pd.has_label (columns fa_club_portal_data) "Surname")
      then raise (ValueError
        "FA Club Portal file does not contain required columns: 'First names', 'Surname'.")
      else mret ());;
     logger_debug "Renaming columns for standardisation...";;
     let loveadmin_data := pd.rename standard_names loveadmin_data in
     logger_debug "Adding presence flags...";;
     let loveadmin_data := pd.setitem loveadmin_data in_loveadmin (Bool true) in
     let fa_club_portal_data := pd.setitem fa_club_portal_data in_fa_club_portal (Bool true) in
     logger_info "Merging datasets...";;
     merged_data ← lift (pd.merge loveadmin_data fa_club_portal_data key_columns);
     logger_debug "Filling NaN values for presence flags...";;
     merged_data ← lift (pd.fillna_column merged_data in_loveadmin (Bool false));
     merged_data ← lift (pd.fillna_column merged_data in_fa_club_portal (Bool false));
     logger_debug "Reordering columns...";;
     (* columns_order is assigned only once the whole right-hand side,
        comprehension included, has a value *)
     rest ← lift (remaining_columns None (columns merged_data));
     let columns_order := preferred_columns ++ rest in
     merged_data ← lift (pd.getitem_list merged_data columns_order);
     logger_info ("Saving merged data to " +:+ output_file +:+ "...");;
     to_excel merged_data output_file;;
     emit (ShowInfo "Success" (Text "Merge completed successfully."));;
     logger_info "Merge process completed successfully.")
    (λ e,
     logger_error "An error occurred: " e;;
     emit (ShowError "Error" (WithExn "An error occurred: " e))).

(** ** The merged table

    The value of the variable [merged_data] after the fill step, as a
    function of the two frames just loaded; both scripts compute it by the
    same statements. *)
Definition flag_loveadmin (loveadmin_data : DataFrame) : DataFrame :=
  pd.setitem (pd.rename standard_names loveadmin_data) in_loveadmin (Bool true).

Definition flag_fa_club_portal (fa_club_portal_data : DataFrame) : DataFrame :=
  pd.setitem fa_club_portal_data in_fa_club_portal (Bool true).

Definition merged_data (loveadmin_data fa_club_portal_data : DataFrame) : result DataFrame :=
  m ← pd.merge (flag_loveadmin loveadmin_data) (flag_fa_club_portal fa_club_portal_data)
               key_columns;
  m ← pd.fillna_column m in_loveadmin (Bool false);
  pd.fillna_column m in_fa_club_portal (Bool false).


Definition reconcile (sourceA_path sourceB_path output_path : string)
    (header_skip_rows : nat) : prog unit :=
  a ← read_excel sourceA_path 0;
  b ← read_excel sourceB_path header_skip_rows;
  m ← lift (merged_data a b);
  to_excel m output_path.

(** ** Sample data *)

Definition sheet_A : sheet :=
  [ [Str "First name"; Str "Last name"; Str "Team"];
    [Str "Jo"; Str "Lee"; Str "U7"];
    [Str "Sam"; Str "Fox"; Str "U9"] ].

Definition preamble : sheet := replicate 6 [Str "Registration report"].

Definition sheet_B : sheet :=
  preamble ++
  [ [Str "First names"; Str "Surname"; Str "Active mandates"];
    [Str "Jo"; Str "Lee"; Int 1];
    [Str "Al"; Str "Roe"; Int 0] ].

Definition sample_files : gmap string sheet :=
  <["a.xlsx" := sheet_A]> (<["b.xlsx" := sheet_B]> ∅).

Definition sample_world : world := mkWorld sample_files [].

(** ** Keys and their occurrences *)

(** The join key of a row: its cells under "First names" and "Surname". *)
Definition key (df : DataFrame) (row : list cell) : list cell :=
  pd.key_of (columns df) key_columns row.

Definition rows_with_key (df : DataFrame) (k : list cell) : list (list cell) :=
  filter (λ row, key df row = k) (rows df).

Definition occurrences (df : DataFrame) (k : list cell) : nat :=
  length (rows_with_key df k).

(** The value of a row of [df] in the column [label]. *)
Definition value (df : DataFrame) (row : list cell) (label : string) : cell :=
  pd.at_label (columns df) row label.

(** The last character of a label, to tell a suffixed label from a plain one. *)
Fixpoint last_char (s : string) : option ascii :=
  match s with
  | EmptyString => None
  | String a EmptyString => Some a
  | String _ s' => last_char s'
  end.

(** ** The labels of a join

    What [pd.merge] makes of the two label lists: the right frame's labels
    without the keys, the labels both sides have, and the two lists after
    the suffixes. *)
Definition right_labels (R : DataFrame) (on : list string) : list string :=
  filter (λ c, c ∉ on) (columns R).
Definition to_rename (L R : DataFrame) (on : list string) : list string :=
  filter (λ c, c ∈ right_labels R on) (columns L).
Definition llabels (L R : DataFrame) (on : list string) : list string :=
  pd.renamer (to_rename L R on) pd.lsuffix <$> columns L.
Definition rlabels (L R : DataFrame) (on : list string) : list string :=
  pd.renamer (to_rename L R on) pd.rsuffix <$> right_labels R on.

(** The two fill statements, on one row. *)
Definition fill_flags (cols : list string) (row : list cell) : list cell :=
  pd.map_at_label in_fa_club_portal (pd.fill (Bool false)) cols
    (pd.map_at_label in_loveadmin (pd.fill (Bool false)) cols row).

(** The three kinds of rows of an outer join of [L] and [R] on [on]: a left
    row beside a right row, a left row beside empty cells, and a right row
    behind its key and empty cells. *)
Inductive row_kind (L R : DataFrame) (on : list string) (row : list cell) : Prop :=
| matched l r :
    l ∈ rows L → r ∈ rows R →
    pd.key_of (columns R) on r = pd.key_of (columns L) on l →
    row = l ++ pd.drop_labels on (columns R) r → row_kind L R on row
| left_only l :
    l ∈ rows L →
    (∀ r, r ∈ rows R → pd.key_of (columns R) on r ≠ pd.key_of (columns L) on l) →
    row = l ++ replicate (length (rlabels L R on)) NaN →
    row_kind L R on row
| right_only r :
    r ∈ rows R →
    (∀ l, l ∈ rows L → pd.key_of (columns L) on l ≠ pd.key_of (columns R) on r) →
    row = pd.left_blank (columns L) (columns R) on r ++ pd.drop_labels on (columns R) r →
    row_kind L R on row.

(** A table in which one player is listed twice. *)
Definition twins : DataFrame :=
  mkDataFrame ["First names"; "Surname"]
              [[Str "Jo"; Str "Lee"]; [Str "Jo"; Str "Lee"]].

(** ** What a run of [merge_datasets] computes

    The frame a path loads to, and the merged table as a function of the
    file system: the pure content of the script between its two reads and
    its write. *)
Definition load (fs : gmap string sheet) (path : string) (skiprows : nat)
    : result DataFrame :=
  match fs !! path with
  | Some s => Ok (pd.read_sheet skiprows s)
  | None => Raise (FileNotFoundError path)
  end.

Definition merged_from (fs : gmap string sheet) (loveadmin_path fa_club_portal_path : string)
    : result DataFrame :=
  a ← load fs loveadmin_path 0;
  b ← load fs fa_club_portal_path 6;
  merged_data a b.

(** A run from a given file system, with an empty trace. *)
Definition run {A} (p : prog A) (fs : gmap string sheet) : result A * world :=
  p (mkWorld fs []).

(** ** More sample data *)

(** A LoveAdmin export that already uses the standardised names. *)
Definition sheet_A_standard : sheet :=
  [ [Str "First names"; Str "Surname"; Str "Team"];
    [Str "Jo"; Str "Lee"; Str "U7"] ].

(** A registration report without the six leading rows. *)
Definition sheet_B_bare : sheet :=
  [ [Str "First names"; Str "Surname"; Str "Active mandates"];
    [Str "Jo"; Str "Lee"; Int 1] ].

Definition more_files : gmap string sheet :=
  <["std.xlsx" := sheet_A_standard]> (<["bare.xlsx" := sheet_B_bare]> sample_files).

Definition jo_lee : list cell := [Str "Jo"; Str "Lee"].
Definition sam_fox : list cell := [Str "Sam"; Str "Fox"].
Definition al_roe : list cell := [Str "Al"; Str "Roe"].

Definition sample_A : DataFrame := pd.read_sheet 0 sheet_A.
Definition sample_B : DataFrame := pd.read_sheet 6 sheet_B.

Definition sample_merged : DataFrame :=
  mkDataFrame
    ["First names"; "Surname"; "Team"; "In_LoveAdmin"; "Active mandates";
     "In_FA_Club_Portal"]
    [ [Str "Jo"; Str "Lee"; Str "U7"; Bool true; Int 1; Bool true];
      [Str "Sam"; Str "Fox"; Str "U9"; Bool true; NaN; Bool false];
      [Str "Al"; Str "Roe"; NaN; Bool false; Int 0; Bool true] ].

(** The events of a successful run of [merge_datasets]. *)
Definition cli_success_trace (loveadmin_path fa_club_portal_path output_path : string)
    : list event :=
  [ Log INFO (Text "Loading LoveAdmin data...");
    ReadExcel loveadmin_path;
    Log INFO (Text "Loading FA Club Portal data...");
    ReadExcel fa_club_portal_path;
    Log DEBUG (Text "Renaming columns for standardisation...");
    Log DEBUG (Text "Adding presence flags...");
    Log INFO (Text "Merging datasets...");
    Log DEBUG (Text "Filling NaN values for presence flags...");
    Log INFO (Text ("Saving merged data to " +:+ output_path +:+ "..."));
    ToExcel output_path;
    Log INFO (Text "Merge process completed successfully.") ].



(** A one-row table under the standardised names, and its merge with
    itself. *)
Definition solo : DataFrame := pd.read_sheet 0 sheet_A_standard.

Definition solo_merged : DataFrame :=
  Eval vm_compute in
    match merged_data solo solo with
    | Ok out => out
    | Raise _ => mkDataFrame [] []
    end.

(** The column order the reorder step is after, once [columns_order] is
    bound to the preferred list before the comprehension runs. *)
Definition intended_columns_order (cols : list string) : result (list string) :=
  rest ← remaining_columns (Some preferred_columns) cols;
  Ok (preferred_columns ++ rest).

(** ** The other handlers of the window *)

(** [select_loveadmin_file], [select_fa_club_portal_file] and
    [save_output_file]: the path the file dialog returns (the empty string
    when the dialog is cancelled) is stored in the field, whatever the field
    held. *)
Definition select_loveadmin_file (file_path : string) (f : form) : form :=
  mkForm file_path (fa_club_portal_file_var f) (output_file_var f).

Definition select_fa_club_portal_file (file_path : string) (f : form) : form :=
  mkForm (loveadmin_file_var f) file_path (output_file_var f).

Definition save_output_file (file_path : string) (f : form) : form :=
  mkForm (loveadmin_file_var f) (fa_club_portal_file_var f) file_path.

Definition show_help : prog unit :=
  emit (ShowInfo "Help" (Text "For assistance, contact: mark@bacon.me.uk")).

(** The events of a run of [validate_and_merge] that stops at a column
    check. *)
Definition gui_rejected_trace (loveadmin_file fa_club_portal_file : string) (e : exn)
    : list event :=
  [ Log INFO (Text "Loading LoveAdmin data...");
    ReadExcel loveadmin_file;
    Log INFO (Text "Loading FA Club Portal data...");
    ReadExcel fa_club_portal_file;
    Log ERROR (WithExn "An error occurred: " e);
    ShowError "Error" (WithExn "An error occurred: " e) ].

Definition loveadmin_columns_missing : exn :=
  ValueError "LoveAdmin file does not contain required columns: 'Last name', 'First name'.".

Definition fa_club_portal_columns_missing : exn :=
  ValueError "FA Club Portal file does not contain required columns: 'First names', 'Surname'.".

(** ** configure_logging (the same in the three scripts) *)

Module logging.

(** ['\033'] *)
Definition ESC : string := String "027"%char EmptyString.

Definition reset : string := ESC +:+ "[0m".

Definition log_colors : gmap string string :=
  list_to_map
    [ ("DEBUG", ESC +:+ "[1;34m");
      ("INFO", ESC +:+ "[1;32m");
      ("WARNING", ESC +:+ "[1;33m");
      ("ERROR", ESC +:+ "[1;31m");
      ("CRITICAL", ESC +:+ "[1;41m") ].

(** The fields of a log record that the format string uses. *)
Record LogRecord := mkLogRecord {
  asctime : string;
  filename : string;
  funcName : string;
  lineno : nat;
  levelname : string;
  message : string
}.

(** [log_format % record], for a record without exception information. *)
Definition formatMessage (record : LogRecord) : string :=
  ESC +:+ "[1;37m" +:+ asctime record +:+ reset +:+ " - "
  +:+ ESC +:+ "[1;34m" +:+ filename record +:+ reset +:+ " - "
  +:+ ESC +:+ "[1;33m" +:+ funcName record +:+ reset +:+ " - "
  +:+ ESC +:+ "[1;36m" +:+ pretty (lineno record) +:+ reset +:+ " - "
  +:+ levelname record +:+ " - " +:+ message record.

(** [CustomFormatter.format]: the level name of the record is overwritten
    with its coloured form, and the record formatted; the record is the one
    object every handler is given, so the change stays. *)
Definition format (record : LogRecord) : string * LogRecord :=
  let log_color := default reset (log_colors !! levelname record) in
  let record :=
    mkLogRecord (asctime record) (filename record) (funcName record) (lineno record)
                (log_color +:+ levelname record +:+ reset) (message record) in
  (formatMessage record, record).

Inductive handler :=
| FileHandler (filename : string)
| StreamHandler.

#[global] Instance handler_eq_dec : EqDecision handler.
Proof. solve_decision. Defined.

(** Python's truth value of [log_file], which is [None] or a string. *)
Definition truthy (log_file : option string) : bool :=
  match log_file with
  | Some s => negb (bool_decide (s = EmptyString))
  | None => false
  end.

(** The handlers [configure_logging] builds and hands to
    [logging.basicConfig]; each gets the one [CustomFormatter]. *)
Definition configure_logging (log_file : option string) (force_console : bool)
    : list handler :=
  let handlers := [] in
  let handlers :=
    if truthy log_file then handlers ++ [FileHandler (default EmptyString log_file)]
    else handlers in
  let handlers :=
    if negb (truthy log_file) || force_console then handlers ++ [StreamHandler]
    else handlers in
  handlers.

(** [Logger.callHandlers]: each handler formats the same record in turn and
    emits the line. *)
Fixpoint callHandlers (handlers : list handler) (record : LogRecord)
    : list (handler * string) :=
  match handlers with
  | [] => []
  | h :: handlers' =>
      let (line, record') := format record in
      (h, line) :: callHandlers handlers' record'
  end.

End logging.

(** ** scripts/create_team_images.py *)

Module images.

Definition DEFAULT_INPUT_FILE : string := "wwfc.png".
Definition DEFAULT_OUTPUT_DIR : string := "output_images".
Definition DEFAULT_FONT_PATH : string :=
  "/usr/share/fonts/truetype/dejavu/DejaVuSans-Bold.ttf".
Definition DEFAULT_FONT_SIZE : Z := 300.
Definition DEFAULT_TEXT_COLOUR : string := "#000033".
Definition DEFAULT_PADDING : Z := 400.
Definition DEFAULT_LINE_SPACING : Z := 20.

(** *** The string methods the script uses

    A string is a sequence of characters with codes below 256. *)

(** [str.isspace] on one character: tab to carriage return, the four
    separators 28 to 31, space, next-line and no-break space. *)
Definition isspace (c : ascii) : bool :=
  let n := nat_of_ascii c in
  ((9 <=? n) && (n <=? 13)) || ((28 <=? n) && (n <=? 32)) || (n =? 133) || (n =? 160).

Fixpoint lstrip (s : string) : string :=
  match s with
  | EmptyString => EmptyString
  | String c s' => if isspace c then lstrip s' else s
  end.

Fixpoint rstrip (s : string) : string :=
  match s with
  | EmptyString => EmptyString
  | String c s' =>
      match rstrip s' with
      | EmptyString => if isspace c then EmptyString else String c EmptyString
      | t => String c t
      end
  end.

(** [s.strip()] *)
Definition strip (s : string) : string := rstrip (lstrip s).

(** [c in s] for a one-character string [c]. *)
Fixpoint contains (c : ascii) (s : string) : bool :=
  match s with
  | EmptyString => false
  | String a s' => if decide (a = c) then true else contains c s'
  end.

(** [s.split(c, 1)] when [c] occurs in [s]: what stands before the first
    [c], and what stands after it. *)
Fixpoint split_once (c : ascii) (s : string) : string * string :=
  match s with
  | EmptyString => (EmptyString, EmptyString)
  | String a s' =>
      if decide (a = c) then (EmptyString, s')
      else let (before, after) := split_once c s' in (String a before, after)
  end.

(** [s.replace(old, new)] for a one-character [old]. *)
Fixpoint replace (old : ascii) (new : string) (s : string) : string :=
  match s with
  | EmptyString => EmptyString
  | String a s' =>
      if decide (a = old) then new +:+ replace old new s'
      else String a (replace old new s')
  end.

Definition startswith (c : ascii) (s : string) : bool :=
  match s with
  | String a _ => bool_decide (a = c)
  | EmptyString => false
  end.

Fixpoint endswith (c : ascii) (s : string) : bool :=
  match s with
  | EmptyString => false
  | String a EmptyString => bool_decide (a = c)
  | String _ s' => endswith c s'
  end.

(** Python's truth value of a string. *)
Definition nonempty (s : string) : bool := negb (bool_decide (s = EmptyString)).

(** [os.path.join(a, b)] (posixpath) *)
Definition path_join (a b : string) : string :=
  if startswith "/" b then b
  else if negb (nonempty a) || endswith "/" a then a +:+ b
  else a +:+ "/" +:+ b.

(** *** One team: its two lines, its file, its layout *)

(** [line1] and [line2] of the loop body, from [clean_text]. *)
Definition lines_of (clean_text : string) : string * string :=
  if contains "(" clean_text then
    let (line1, line2) := split_once "(" clean_text in
    (strip line1, "(" +:+ strip line2)
  else (clean_text, EmptyString).

Definition file_stem (clean_text : string) : string :=
  replace ")" EmptyString (replace "(" EmptyString (replace " " "_" clean_text)).

Definition output_filename (output_dir clean_text : string) : string :=
  path_join output_dir (file_stem clean_text +:+ ".png").

(** What [font.getbbox(text)] returns. *)
Record bbox := mkBbox {
  bbox_left : Z;
  bbox_top : Z;
  bbox_right : Z;
  bbox_bottom : Z
}.

(** A font, as far as the script looks at it. *)
Definition font : Type := string → bbox.

Record drawn_text := mkText {
  text_x : Z;
  text_y : Z;
  text_value : string;
  text_fill : string
}.

(** An image: one opened from a file, or a white canvas with an image pasted
    at its top left corner and texts drawn on it. *)
Inductive image :=
| Opened (path : string) (width height : Z)
| Canvas (width height : Z) (pasted : image) (texts : list drawn_text).

Record layout := mkLayout {
  line1_width : Z;
  line1_height : Z;
  line2_width : Z;
  line2_height : Z;
  total_text_height : Z;
  padding : Z;
  new_image_height : Z;
  text_start_y : Z;
  line1_x : Z;
  line2_x : Z;
  line2_y : Z
}.

(** The arithmetic of the loop body. *)
Definition layout_of (f : font) (image_width image_height : Z) (line1 line2 : string)
    : layout :=
  let line1_width := bbox_right (f line1) in
  let line1_height := bbox_bottom (f line1) in
  let line2_width := if nonempty line2 then bbox_right (f line2) else 0%Z in
  let line2_height := if nonempty line2 then bbox_bottom (f line2) else 0%Z in
  let total_text_height :=
    (line1_height + (if nonempty line2 then line2_height else 0) + DEFAULT_LINE_SPACING)%Z in
  let padding := Z.max DEFAULT_PADDING (total_text_height + 50) in
  let new_image_height := (image_height + padding)%Z in
  let text_start_y := (image_height + (padding - total_text_height) / 2)%Z in
  let line1_x := ((image_width - line1_width) / 2)%Z in
  let line2_x := ((image_width - line2_width) / 2)%Z in
  let line2_y := (text_start_y + line1_height + DEFAULT_LINE_SPACING)%Z in
  mkLayout line1_width line1_height line2_width line2_height total_text_height padding
           new_image_height text_start_y line1_x line2_x line2_y.

(** [final_image] of the loop body. *)
Definition final_image_of (f : font) (fill_color : string) (base_image : image)
    (image_width image_height : Z) (clean_text : string) : image :=
  let (line1, line2) := lines_of clean_text in
  let l := layout_of f image_width image_height line1 line2 in
  Canvas image_width (new_image_height l) base_image
    (mkText (line1_x l) (text_start_y l) line1 fill_color
     :: (if nonempty line2 then [mkText (line2_x l) (line2_y l) line2 fill_color] else [])).

(** *** The environment and the state *)

(** The exceptions of the libraries: [OSError] (which [IOError] names too)
    and any other [Exception]. *)
Inductive error :=
| OSError (what : string)
| OtherError (what : string).

(** What a call can raise: [SystemExit], which is no [Exception], or an
    [Exception]. *)
Inductive raised :=
| SystemExit (code : Z)
| Exception (e : error).

(** What the file system and Pillow answer.  Copying, pasting and drawing
    work in memory and are taken not to raise. *)
Record environment := mkEnvironment {
  isfile : string → bool;
  image_open : string → error + (Z * Z);
  truetype : string → Z → error + font;
  load_default : font;
  makedirs : string → option error;
  save : string → option error;
  readlines : string → error + list string
}.

Record log_line := mkLogLine {
  log_level : level;
  log_text : string;
  log_exception : option error
}.

Record state := mkState {
  saved : list (string * image);
  made : list string;
  handlers : list logging.handler;
  log : list log_line
}.

Definition action (A : Type) : Type := state → (raised + A) * state.

#[global] Instance action_ret : MRet action := λ A a s, (inr a, s).
#[global] Instance action_bind : MBind action := λ A B f m s,
  match m s with
  | (inr a, s') => f a s'
  | (inl e, s') => (inl e, s')
  end.

Definition throw {A} (e : raised) : action A := λ s, (inl e, s).

Definition logger (lvl : level) (text : string) : action unit :=
  λ s, (inr (), mkState (saved s) (made s) (handlers s)
                  (log s ++ [mkLogLine lvl text None])).

Definition logger_exception (text : string) (e : error) : action unit :=
  λ s, (inr (), mkState (saved s) (made s) (handlers s)
                  (log s ++ [mkLogLine ERROR text (Some e)])).

(** A library call that raises an [Exception] or returns. *)
Definition call {A} (r : error + A) : action A :=
  match r with
  | inl e => throw (Exception e)
  | inr a => mret a
  end.

(** [try: body except Exception as e: handler(e)] *)
Definition except_Exception {A} (body : action A) (handler : error → action A)
    : action A :=
  λ s, match body s with
       | (inl (Exception e), s') => handler e s'
       | other => other
       end.

(** [try: body except IOError: handler] *)
Definition except_IOError {A} (body : action A) (handler : action A) : action A :=
  λ s, match body s with
       | (inl (Exception (OSError _)), s') => handler s'
       | other => other
       end.

Fixpoint for_each (body : string → action unit) (l : list string) : action unit :=
  match l with
  | [] => mret ()
  | x :: l' => body x;; for_each body l'
  end.

Definition os_makedirs (env : environment) (path : string) : action unit :=
  λ s, match makedirs env path with
       | Some e => (inl (Exception e), s)
       | None => (inr (), mkState (saved s) (made s ++ [path]) (handlers s) (log s))
       end.

Definition image_save (env : environment) (img : image) (path : string) : action unit :=
  λ s, match save env path with
       | Some e => (inl (Exception e), s)
       | None => (inr (), mkState (saved s ++ [(path, img)]) (made s) (handlers s) (log s))
       end.

(** *** The functions of the script *)

Definition validate_file (env : environment) (file_path description : string)
    : action unit :=
  if negb (isfile env file_path) then
    logger ERROR ("The specified " +:+ description +:+ " does not exist: " +:+ file_path);;
    throw (SystemExit 1)
  else mret ().

Definition generate_images (env : environment)
    (base_image_path output_dir : string) (teams_list : list string)
    (font_path : string) (font_size : Z) (fill_color : string) : action unit :=
  logger INFO "Starting image generation process";;
  except_Exception
    (validate_file env base_image_path "input image";;
     validate_file env font_path "font file";;
     size ← call (image_open env base_image_path);
     let base_image := Opened base_image_path size.1 size.2 in
     let image_width := size.1 in
     let image_height := size.2 in
     logger DEBUG ("Base image loaded with size: " +:+ pretty image_width +:+ "x"
                   +:+ pretty image_height);;
     f ← except_IOError
           (f ← call (truetype env font_path font_size);
            logger DEBUG ("Font loaded: " +:+ font_path +:+ " with size "
                          +:+ pretty font_size);;
            mret f)
           (logger ERROR "Failed to load font. Using default font.";;
            mret (load_default env));
     os_makedirs env output_dir;;
     logger DEBUG ("Output directory ensured: " +:+ output_dir);;
     for_each
       (λ text,
        logger INFO ("Processing text: " +:+ text);;
        let clean_text := strip text in
        let final_image :=
          final_image_of f fill_color base_image image_width image_height clean_text in
        let output_filename := output_filename output_dir clean_text in
        image_save env final_image output_filename;;
        logger INFO ("Saved: " +:+ output_filename))
       teams_list)
    (λ e, logger_exception "An error occurred: " e).

(** The command line, once parsed. *)
Record arguments := mkArguments {
  arg_input : string;
  arg_output : string;
  arg_font : string;
  arg_font_size : Z;
  arg_fill_color : string;
  arg_log_file : option string;
  arg_force_console : bool;
  arg_teams_file : option string
}.

Definition default_arguments : arguments :=
  mkArguments DEFAULT_INPUT_FILE DEFAULT_OUTPUT_DIR DEFAULT_FONT_PATH DEFAULT_FONT_SIZE
              DEFAULT_TEXT_COLOUR None false None.

(** [[line.strip() for line in f if line.strip()]] *)
Definition teams_of_lines (lines : list string) : list string :=
  strip <$> filter (λ line, nonempty (strip line) = true) lines.

Definition default_teams : list string :=
  ["U7 Blue"; "U16 Red"; "U12 Blue (Mark Bacon)"].


(** The teams before the first one whose image cannot be saved. *)
Fixpoint savable (env : environment) (output_dir : string) (teams_list : list string)
    : list string :=
  match teams_list with
  | [] => []
  | text :: rest =>
      match save env (output_filename output_dir (strip text)) with
      | None => text :: savable env output_dir rest
      | Some _ => []
      end
  end.

(** The exception of the first save that fails, if one does. *)
Fixpoint save_failure (env : environment) (output_dir : string) (teams_list : list string)
    : option error :=
  match teams_list with
  | [] => None
  | text :: rest =>
      match save env (output_filename output_dir (strip text)) with
      | None => save_failure env output_dir rest
      | Some e => Some e
      end
  end.

(** The body of the loop of [generate_images], for one team. *)
Definition process_team (env : environment) (f : font) (fill_color : string)
    (base_image : image) (image_width image_height : Z) (output_dir : string)
    (text : string) : action unit :=
  logger INFO ("Processing text: " +:+ text);;
  let clean_text := strip text in
  let final_image :=
    final_image_of f fill_color base_image image_width image_height clean_text in
  let output_filename := output_filename output_dir clean_text in
  image_save env final_image output_filename;;
  logger INFO ("Saved: " +:+ output_filename).

(** The file and the image of each team of a list. *)
Definition planned (f : font) (fill_color : string) (base_image : image)
    (image_width image_height : Z) (output_dir : string) (teams_list : list string)
    : list (string * image) :=
  (λ text, (output_filename output_dir (strip text),
            final_image_of f fill_color base_image image_width image_height (strip text)))
  <$> teams_list.

(** The font the images are drawn with: the one asked for, or the default
    one when loading it raises [IOError]. *)
Definition font_used (env : environment) (font_path : string) (font_size : Z)
    : error + font :=
  match truetype env font_path font_size with
  | inr f => inr f
  | inl (OSError _) => inr (load_default env)
  | inl e => inl e
  end.

(** One pass over a name: a space becomes an underscore, parentheses go. *)
Fixpoint sanitise (s : string) : string :=
  match s with
  | EmptyString => EmptyString
  | String a s' =>
      if decide (a = " "%char) then String "_" (sanitise s')
      else if decide (a = "("%char) then sanitise s'
      else if decide (a = ")"%char) then sanitise s'
      else String a (sanitise s')
  end.

(** A run in which an [Exception] was caught: it returns normally, no image
    and no directory has been added, and its last log line is the ERROR line
    with the exception. *)
Definition swallowed (s : state) (r : (raised + ()) * state) (e : error) : Prop :=
  r.1 = inr () ∧ saved r.2 = saved s ∧ made r.2 = made s
  ∧ last (log r.2) = Some (mkLogLine ERROR "An error occurred: " (Some e)).

(** A sample environment: both files are there, everything succeeds, and a
    character is 10 wide and 12 high. *)
Definition sample_font : font :=
  λ s, mkBbox 0 0 (10 * Z.of_nat (String.length s)) 12%Z.



(** The same, with a base image that Pillow cannot identify. *)
Definition unreadable_image_environment : environment :=
  mkEnvironment (λ _, true) (λ _, inl (OtherError "cannot identify image file"))
                (λ _ _, inr sample_font) sample_font
                (λ _, None) (λ _, None) (λ _, inr []).

Definition empty_state : state := mkState [] [] [] [].

End images.

(** ** Lemmas on the frame operations *)

Section pandas_lemmas.
Import pd.

Lemma has_label_true cols c : has_label cols c = true ↔ c ∈ cols.
Proof. unfold has_label. apply bool_decide_eq_true. Qed.

Lemma has_label_false cols c : has_label cols c = false ↔ c ∉ cols.
Proof. unfold has_label. apply bool_decide_eq_false. Qed.

Lemma index_of_Some c cols i :
  index_of c cols = Some i → cols !! i = Some c.
Proof.
  revert i. induction cols as [|c' cols IH]; intros i; simpl; [done|].
  case_bool_decide as Hc.
  - intros [= <-]. by subst.
  - destruct (index_of c cols) as [j|]; simpl; [|done].
    intros [= <-]. simpl. by apply IH.
Qed.

Lemma index_of_is_Some c cols : c ∈ cols → is_Some (index_of c cols).
Proof.
  induction 1 as [c cols|c c' cols _ IH]; simpl.
  - rewrite bool_decide_eq_true_2 by done. eauto.
  - case_bool_decide; [eauto|]. destruct IH as [j ->]. simpl. eauto.
Qed.

Lemma index_of_app c cols1 cols2 :
  c ∈ cols1 → index_of c (cols1 ++ cols2) = index_of c cols1.
Proof.
  induction cols1 as [|c' cols1 IH]; simpl.
  - by intros ?%elem_of_nil.
  - intros Hin. case_bool_decide as Hc; [done|].
    apply elem_of_cons in Hin as [->|Hin]; [done|]. by rewrite IH.
Qed.

Lemma index_of_fmap (g : string → string) c cols :
  g c = c → (∀ x, x ∈ cols → g x = c → x = c) →
  index_of c (g <$> cols) = index_of c cols.
Proof.
  intros Hc. induction cols as [|c' cols IH]; intros Hg; [done|].
  rewrite fmap_cons. cbn [index_of].
  rewrite IH by (intros x Hx; apply Hg; by right).
  repeat case_bool_decide; try done.
  - exfalso. match goal with H : c' ≠ c |- _ => apply H end.
    apply Hg; [by left|done].
  - subst. congruence.
Qed.

Lemma map_at_label_length label f cols row :
  length (map_at_label label f cols row) = length row.
Proof.
  revert row. induction cols as [|c cols IH]; intros [|v row]; simpl; auto.
Qed.

Lemma map_at_label_lookup label f cols row i :
  map_at_label label f cols row !! i =
  match cols !! i with
  | Some c => if bool_decide (c = label) then f <$> row !! i else row !! i
  | None => row !! i
  end.
Proof.
  revert row i. induction cols as [|c cols IH]; intros [|v row] [|i]; simpl;
    try done; try (by case_bool_decide).
  by destruct (cols !! i); [case_bool_decide|].
Qed.

Lemma at_label_map_at_label label f cols row c :
  c ≠ label → at_label cols (map_at_label label f cols row) c = at_label cols row c.
Proof.
  intros Hne. unfold at_label.
  destruct (index_of c cols) as [i|] eqn:Hi; [|done].
  apply index_of_Some in Hi. rewrite map_at_label_lookup, Hi.
  by rewrite bool_decide_eq_false_2.
Qed.

Lemma key_of_map_at_label label f cols on row :
  label ∉ on → key_of cols on (map_at_label label f cols row) = key_of cols on row.
Proof.
  intros Hnot. unfold key_of. apply list_fmap_ext. intros i c Hc.
  apply at_label_map_at_label. intros ->. apply Hnot.
  by eapply list_elem_of_lookup_2.
Qed.

Lemma at_label_app cols1 cols2 row1 row2 c :
  c ∈ cols1 → length row1 = length cols1 →
  at_label (cols1 ++ cols2) (row1 ++ row2) c = at_label cols1 row1 c.
Proof.
  intros Hin Hlen. unfold at_label. rewrite index_of_app by done.
  destruct (index_of c cols1) as [i|] eqn:Hi; [|done].
  apply index_of_Some, lookup_lt_Some in Hi.
  rewrite lookup_app_l by lia. done.
Qed.

Lemma at_label_snoc cols label row v c :
  c ∈ cols → length row = length cols →
  at_label (cols ++ [label]) (row ++ [v]) c = at_label cols row c.
Proof. apply at_label_app. Qed.

Lemma drop_labels_length on cols row :
  length row = length cols →
  length (drop_labels on cols row) = length (filter (λ c, c ∉ on) cols).
Proof.
  unfold drop_labels. rewrite length_fmap.
  revert row. induction cols as [|c cols IH]; intros [|v row]; simpl; try done.
  intros [= Hlen]. rewrite !filter_cons. simpl.
  destruct (decide (c ∉ on)); simpl; rewrite IH; done.
Qed.

(** A cell that survives [drop_labels] comes from a column with the same
    label. *)
Lemma drop_labels_lookup on cols row j c :
  length row = length cols →
  filter (λ c, c ∉ on) cols !! j = Some c →
  ∃ i, cols !! i = Some c ∧ drop_labels on cols row !! j = row !! i.
Proof.
  unfold drop_labels.
  revert row j. induction cols as [|c' cols IH]; intros [|v row] j; simpl; try done.
  intros [= Hlen]. rewrite !filter_cons. simpl.
  destruct (decide (c' ∉ on)); simpl.
  - destruct j as [|j]; simpl.
    + intros [= ->]. by exists 0.
    + intros Hj. destruct (IH row j Hlen Hj) as (i & Hi & Hrow). by exists (S i).
  - intros Hj. destruct (IH row j Hlen Hj) as (i & Hi & Hrow). by exists (S i).
Qed.

Lemma left_blank_length lcols rcols on r :
  length (left_blank lcols rcols on r) = length lcols.
Proof. unfold left_blank. by rewrite length_fmap. Qed.

Lemma left_blank_lookup lcols rcols on r i c :
  lcols !! i = Some c →
  left_blank lcols rcols on r !! i =
  Some (if has_label on c then at_label rcols r c else NaN).
Proof. intros Hi. unfold left_blank. by rewrite list_lookup_fmap, Hi. Qed.

Lemma at_label_left_blank lcols rcols on r k :
  k ∈ on → k ∈ lcols →
  at_label lcols (left_blank lcols rcols on r) k = at_label rcols r k.
Proof.
  intros Hon Hl. unfold at_label at 1.
  destruct (index_of_is_Some _ _ Hl) as [i Hi]. rewrite Hi.
  apply index_of_Some in Hi. erewrite left_blank_lookup by done. simpl.
  by rewrite (proj2 (has_label_true on k)).
Qed.

End pandas_lemmas.

(** ** Suffixed labels *)

Lemma last_char_append (s t : string) :
  t ≠ EmptyString → last_char (s +:+ t) = last_char t.
Proof.
  intros Ht. induction s as [|a s IH]; [done|].
  change (String a s +:+ t) with (String a (s +:+ t)).
  cbn [last_char]. rewrite IH.
  destruct (s +:+ t) eqn:Hst; [|done].
  destruct s; [|done]. by destruct Ht.
Qed.

Lemma suffixed_ne (c suffix label : string) :
  suffix ≠ EmptyString → last_char suffix ≠ last_char label → c +:+ suffix ≠ label.
Proof. intros Hs Hne <-. by rewrite last_char_append in Hne. Qed.

Lemma lsuffix_ne_key c k : k ∈ key_columns → c +:+ pd.lsuffix ≠ k.
Proof.
  unfold key_columns. rewrite !elem_of_cons, elem_of_nil.
  intros [->|[->|[]]]; by apply suffixed_ne.
Qed.

Lemma suffix_ne_in_loveadmin c :
  c +:+ pd.lsuffix ≠ in_loveadmin ∧ c +:+ pd.rsuffix ≠ in_loveadmin.
Proof. split; by apply suffixed_ne. Qed.

Lemma suffix_ne_in_fa_club_portal c :
  c +:+ pd.lsuffix ≠ in_fa_club_portal ∧ c +:+ pd.rsuffix ≠ in_fa_club_portal.
Proof. split; by apply suffixed_ne. Qed.

Lemma renamer_inv to_rename suffix x c :
  (∀ y, y +:+ suffix ≠ c) →
  pd.renamer to_rename suffix x = c → x = c ∧ x ∉ to_rename.
Proof.
  intros Hs. unfold pd.renamer.
  destruct (pd.has_label to_rename x) eqn:Hx.
  - intros ?. by destruct (Hs x).
  - intros ->. by apply has_label_false in Hx.
Qed.

(** ** Filters over maps and binds *)

Lemma filter_all {A} (P : A → Prop) `{!∀ x, Decision (P x)} (l : list A) :
  Forall P l → filter P l = l.
Proof.
  induction 1 as [|x l Hx _ IH]; [done|].
  by rewrite filter_cons_True, IH.
Qed.

Lemma filter_none {A} (P : A → Prop) `{!∀ x, Decision (P x)} (l : list A) :
  Forall (λ x, ¬ P x) l → filter P l = [].
Proof.
  induction 1 as [|x l Hx _ IH]; [done|].
  by rewrite filter_cons_False, IH.
Qed.

Section filters.
Context {A B : Type}.

Lemma filter_fmap (P : B → Prop) `{!∀ y, Decision (P y)} (g : A → B) (l : list A) :
  filter P (g <$> l) = g <$> filter (λ x, P (g x)) l.
Proof.
  induction l as [|x l IH]; [done|].
  rewrite fmap_cons, !filter_cons, IH. by destruct (decide (P (g x))).
Qed.

Lemma filter_bind (P : B → Prop) (Q : A → Prop)
    `{!∀ y, Decision (P y), !∀ x, Decision (Q x)} (f : A → list B) (l : list A) :
  (∀ x y, x ∈ l → y ∈ f x → P y ↔ Q x) →
  filter P (l ≫= f) = filter Q l ≫= f.
Proof.
  induction l as [|x l IH]; intros HPQ; [done|].
  rewrite bind_cons, filter_app, filter_cons.
  rewrite IH by (intros x' y Hx'; apply HPQ; by right).
  destruct (decide (Q x)) as [HQ|HQ].
  - rewrite bind_cons. f_equal. apply filter_all, Forall_forall.
    intros y Hy. apply (HPQ x y); [by left|done|done].
  - rewrite filter_none; [done|]. apply Forall_forall.
    intros y Hy HP. apply HQ, (HPQ x y); [by left|done|done].
Qed.

Lemma length_bind_const (f : A → list B) (n : nat) (l : list A) :
  Forall (λ x, length (f x) = n) l → length (l ≫= f) = length l * n.
Proof.
  induction 1 as [|x l Hx _ IH]; [done|].
  rewrite bind_cons, length_app, Hx, IH. simpl. lia.
Qed.

End filters.

(** ** The outer join *)

Section merge_lemmas.
Import pd.
Context (L R : DataFrame) (on : list string) (m : DataFrame).
Hypothesis HL : rectangular L.
Hypothesis HR : rectangular R.
Hypothesis Hm : merge L R on = Ok m.
Hypothesis Hon : ∀ k c, k ∈ on → c +:+ lsuffix ≠ k.

Lemma check_label_inv cols k : check_label cols k = Ok () → k ∈ cols.
Proof.
  unfold check_label. destruct (has_label cols k) eqn:Hk; [|done].
  intros _. by apply has_label_true.
Qed.

Lemma get_merge_keys_inv lcols rcols ks :
  get_merge_keys lcols rcols ks = Ok () →
  ∀ k, k ∈ ks → k ∈ lcols ∧ k ∈ rcols.
Proof.
  induction ks as [|k0 ks IH]; simpl.
  - intros _ k Hk. by apply elem_of_nil in Hk.
  - unfold mbind, result_bind.
    destruct (check_label rcols k0) as [[]|] eqn:Hr; [|done].
    destruct (check_label lcols k0) as [[]|] eqn:Hl; [|done].
    intros Hks k [->|Hk]%elem_of_cons; [|by apply IH].
    split; by apply check_label_inv.
Qed.

Lemma merge_inv :
  get_merge_keys (columns L) (columns R) on = Ok () ∧
  columns m = llabels L R on ++ rlabels L R on ∧
  rows m =
    (rows L ≫= left_block (columns L) (columns R) on (rows R) (length (rlabels L R on)))
    ++ ((λ r, left_blank (columns L) (columns R) on r ++ drop_labels on (columns R) r)
        <$> filter (λ r, Forall (λ l, key_of (columns L) on l ≠ key_of (columns R) on r)
                                (rows L)) (rows R)).
Proof.
  revert Hm. unfold merge, mbind, result_bind.
  destruct (get_merge_keys _ _ _) as [[]|]; [|done].
  unfold items_overlap_with_suffix.
  destruct (_ ++ _) as [|]; [|done].
  intros [= <-]. done.
Qed.

Lemma merge_keys_in k : k ∈ on → k ∈ columns L ∧ k ∈ columns R.
Proof. destruct merge_inv as (Hk & _). by apply get_merge_keys_inv. Qed.

Lemma llabels_length : length (llabels L R on) = length (columns L).
Proof. unfold llabels. by rewrite length_fmap. Qed.

Lemma rlabels_length : length (rlabels L R on) = length (right_labels R on).
Proof. unfold rlabels. by rewrite length_fmap. Qed.

Lemma key_not_renamed k : k ∈ on → renamer (to_rename L R on) lsuffix k = k.
Proof.
  intros Hk. unfold renamer.
  destruct (has_label _ k) eqn:Hin; [|done].
  apply has_label_true in Hin. unfold to_rename, right_labels in Hin.
  rewrite !list_elem_of_filter in Hin. by destruct Hin as [[? _] _].
Qed.

Lemma index_of_llabels k :
  k ∈ on → index_of k (llabels L R on) = index_of k (columns L).
Proof.
  intros Hk. apply index_of_fmap; [by apply key_not_renamed|].
  intros x _ Hx. by eapply renamer_inv; [intros y; by apply Hon|].
Qed.

(** The key of a merged row that starts with a full left row is the key
    of that left row. *)
Lemma key_of_left_row l x :
  length l = length (columns L) →
  key_of (columns m) on (l ++ x) = key_of (columns L) on l.
Proof.
  intros Hlen. destruct merge_inv as (_ & -> & _).
  unfold key_of. apply list_fmap_ext. intros i k Hk.
  apply list_elem_of_lookup_2 in Hk.
  assert (k ∈ llabels L R on) as Hin.
  { destruct (index_of_is_Some k (columns L)) as [j Hj]; [by apply merge_keys_in|].
    rewrite <- index_of_llabels in Hj by done.
    by eapply list_elem_of_lookup_2, index_of_Some. }
  unfold at_label. rewrite index_of_app, index_of_llabels by done.
  destruct (index_of k (columns L)) as [j|] eqn:Hj; [|done].
  apply index_of_Some, lookup_lt_Some in Hj. rewrite lookup_app_l by lia. done.
Qed.

Lemma key_of_right_only r x :
  key_of (columns m) on (left_blank (columns L) (columns R) on r ++ x)
  = key_of (columns R) on r.
Proof.
  rewrite key_of_left_row by apply left_blank_length.
  unfold key_of. apply list_fmap_ext. intros i k Hk.
  apply list_elem_of_lookup_2 in Hk.
  apply at_label_left_blank; [done|]. by apply merge_keys_in.
Qed.

Lemma left_block_keys l y :
  l ∈ rows L →
  y ∈ left_block (columns L) (columns R) on (rows R) (length (rlabels L R on)) l →
  key_of (columns m) on y = key_of (columns L) on l.
Proof.
  intros Hl. assert (length l = length (columns L)) as Hlen.
  { by eapply (proj1 (Forall_forall _ _) HL). }
  unfold left_block. destruct (filter _ (rows R)) as [|r rs].
  - intros ->%list_elem_of_singleton. by apply key_of_left_row.
  - intros (r' & -> & _)%list_elem_of_fmap. by apply key_of_left_row.
Qed.

(** The rows of the join that carry a given key. *)
Lemma merge_rows_with_key (k : list cell) :
  filter (λ row, key_of (columns m) on row = k) (rows m) =
    (filter (λ l, key_of (columns L) on l = k) (rows L)
       ≫= left_block (columns L) (columns R) on (rows R) (length (rlabels L R on)))
    ++ ((λ r, left_blank (columns L) (columns R) on r ++ drop_labels on (columns R) r)
        <$> filter (λ r, key_of (columns R) on r = k ∧
                         Forall (λ l, key_of (columns L) on l ≠ key_of (columns R) on r)
                                (rows L)) (rows R)).
Proof.
  destruct merge_inv as (_ & _ & ->).
  rewrite filter_app. f_equal.
  - apply filter_bind. intros l y Hl Hy. by rewrite (left_block_keys l y).
  - rewrite filter_fmap, list_filter_filter. f_equal.
    apply list_filter_iff. intros r. by rewrite key_of_right_only.
Qed.

End merge_lemmas.

(** ** How often a key occurs in the join *)

Section merge_counts.
Import pd.
Context (L R : DataFrame) (on : list string) (m : DataFrame).
Hypothesis HL : rectangular L.
Hypothesis HR : rectangular R.
Hypothesis Hm : merge L R on = Ok m.
Hypothesis Hon : ∀ k c, k ∈ on → c +:+ lsuffix ≠ k.

Lemma left_block_length k l :
  key_of (columns L) on l = k →
  length (left_block (columns L) (columns R) on (rows R) (length (rlabels L R on)) l)
  = 1 `max` length (filter (λ r, key_of (columns R) on r = k) (rows R)).
Proof.
  intros <-. unfold left_block.
  destruct (filter _ (rows R)) as [|r rs]; [done|].
  rewrite length_fmap. simpl. lia.
Qed.

Lemma right_only_with_key k :
  filter (λ r, key_of (columns R) on r = k ∧
               Forall (λ l, key_of (columns L) on l ≠ key_of (columns R) on r) (rows L))
         (rows R)
  = if decide (filter (λ l, key_of (columns L) on l = k) (rows L) = [])
    then filter (λ r, key_of (columns R) on r = k) (rows R)
    else [].
Proof.
  case_decide as Hnil.
  - apply list_filter_iff. intros r. split; [by intros [? _]|].
    intros Hr. split; [done|]. apply Forall_forall. intros l Hl Hk.
    apply (filter_nil_not_elem_of _ _ l Hnil); [congruence|done].
  - apply filter_none, Forall_forall. intros r _ [Hr Hall].
    destruct (filter _ (rows L)) as [|l ls] eqn:Hf; [done|].
    assert (l ∈ filter (λ l, key_of (columns L) on l = k) (rows L)) as Hl
      by (rewrite Hf; by left).
    apply list_elem_of_filter in Hl as [Hlk Hl].
    rewrite Forall_forall in Hall. apply (Hall l Hl). congruence.
Qed.

Lemma merge_occurrences k :
  let nL := length (filter (λ l, key_of (columns L) on l = k) (rows L)) in
  let nR := length (filter (λ r, key_of (columns R) on r = k) (rows R)) in
  length (filter (λ row, key_of (columns m) on row = k) (rows m))
  = nL * (1 `max` nR) + (if decide (nL = 0) then nR else 0).
Proof.
  intros nL nR. rewrite (merge_rows_with_key L R on m) by done.
  rewrite length_app, length_fmap. f_equal.
  - apply length_bind_const, Forall_forall. intros l Hl.
    apply list_elem_of_filter in Hl as [Hl _]. by apply left_block_length.
  - rewrite right_only_with_key. subst nL.
    by destruct (filter (λ l, _ l = k) (rows L)) as [|l ls].
Qed.

End merge_counts.

(** ** Frames after renaming and flagging *)

Section flags.
Import pd.

Lemma rename_rectangular mapping df : rectangular df → rectangular (rename mapping df).
Proof.
  unfold rectangular, rename. simpl. intros H.
  eapply Forall_impl; [done|]. intros r. by rewrite length_fmap.
Qed.

Lemma setitem_rectangular df label v :
  rectangular df → rectangular (setitem df label v).
Proof.
  unfold rectangular, setitem. intros H.
  destruct (has_label _ _); simpl; apply Forall_fmap.
  - eapply Forall_impl; [done|]. intros r Hr. simpl.
    by rewrite map_at_label_length.
  - eapply Forall_impl; [done|]. intros r Hr. simpl.
    rewrite !length_app, Hr. done.
Qed.

Lemma setitem_has_label df label v : label ∈ columns (setitem df label v).
Proof.
  unfold setitem. destruct (has_label _ _) eqn:H; simpl.
  - by apply has_label_true.
  - apply elem_of_app. right. by left.
Qed.

Lemma setitem_other_label df label v c :
  c ≠ label → c ∈ columns (setitem df label v) ↔ c ∈ columns df.
Proof.
  intros Hne. unfold setitem. destruct (has_label _ _); simpl; [done|].
  rewrite elem_of_app, list_elem_of_singleton. tauto.
Qed.

(** After [df[label] = v], every row holds [v] wherever the label sits. *)
Lemma setitem_cells df label v row i :
  rectangular df → row ∈ rows (setitem df label v) →
  columns (setitem df label v) !! i = Some label → row !! i = Some v.
Proof.
  unfold rectangular, setitem. intros Hrect.
  destruct (has_label _ _) eqn:Hl; simpl.
  - intros (r & -> & Hr)%list_elem_of_fmap Hi.
    rewrite map_at_label_lookup, Hi, bool_decide_eq_true_2 by done.
    rewrite Forall_forall in Hrect. specialize (Hrect r Hr).
    apply lookup_lt_Some in Hi.
    destruct (lookup_lt_is_Some_2 r i) as [x ->]; [lia|done].
  - intros (r & -> & Hr)%list_elem_of_fmap Hi.
    apply has_label_false in Hl.
    rewrite Forall_forall in Hrect. specialize (Hrect r Hr).
    destruct (decide (i < length (columns df))) as [Hlt|Hge].
    + rewrite lookup_app_l in Hi by done.
      destruct Hl. by eapply list_elem_of_lookup_2.
    + assert (i = length r) as ->.
      { apply lookup_lt_Some in Hi. rewrite length_app in Hi. simpl in Hi. lia. }
      by rewrite list_lookup_middle.
Qed.

Lemma index_of_None c cols : c ∉ cols → index_of c cols = None.
Proof.
  intros Hc. destruct (index_of c cols) as [i|] eqn:Hi; [|done].
  destruct Hc. by eapply list_elem_of_lookup_2, index_of_Some.
Qed.

Lemma at_label_snoc_ne cols label row v c :
  c ≠ label → length row = length cols →
  at_label (cols ++ [label]) (row ++ [v]) c = at_label cols row c.
Proof.
  intros Hne Hlen. destruct (decide (c ∈ cols)) as [Hin|Hnot].
  - by apply at_label_app.
  - unfold at_label. rewrite (index_of_None c cols) by done.
    rewrite index_of_None; [done|].
    rewrite elem_of_app, list_elem_of_singleton. tauto.
Qed.

(** Assigning a column that is not a key leaves every key as it was. *)
Lemma setitem_rows df label v on :
  label ∉ on →
  ∃ h, rows (setitem df label v) = h <$> rows df ∧
       ∀ r, length r = length (columns df) →
            key_of (columns (setitem df label v)) on (h r) = key_of (columns df) on r.
Proof.
  intros Hnot. unfold setitem. destruct (has_label _ _); simpl.
  - eexists. split; [done|]. intros r _. by apply key_of_map_at_label.
  - eexists. split; [done|]. intros r Hlen.
    unfold key_of. apply list_fmap_ext. intros i k Hk.
    apply at_label_snoc_ne; [|done]. intros ->.
    apply Hnot. by eapply list_elem_of_lookup_2.
Qed.

Lemma setitem_occurrences df label v on k :
  rectangular df → label ∉ on →
  length (filter (λ r, key_of (columns (setitem df label v)) on r = k)
                 (rows (setitem df label v)))
  = length (filter (λ r, key_of (columns df) on r = k) (rows df)).
Proof.
  intros Hrect Hnot. destruct (setitem_rows df label v on Hnot) as (h & -> & Hh).
  rewrite filter_fmap, length_fmap. f_equal. unfold rectangular in Hrect.
  induction Hrect as [|r rs Hr _ IH]; [done|].
  rewrite !filter_cons, IH, (Hh r Hr). done.
Qed.

End flags.

(** ** The merged table of the scripts *)

Section merged_table.
Import pd.
Context (A B out : DataFrame).
Hypothesis HA : rectangular A.
Hypothesis HB : rectangular B.
Hypothesis Hout : merged_data A B = Ok out.

Local Abbreviation LA := (flag_loveadmin A).
Local Abbreviation FA := (flag_fa_club_portal B).
Local Abbreviation on := key_columns.

Lemma flag_loveadmin_rectangular : rectangular LA.
Proof. by apply setitem_rectangular, rename_rectangular. Qed.

Lemma flag_fa_club_portal_rectangular : rectangular FA.
Proof. by apply setitem_rectangular. Qed.

Lemma in_loveadmin_not_key : in_loveadmin ∉ on.
Proof. by apply (bool_decide_eq_false_1 (_ ∈ _)). Qed.

Lemma in_fa_club_portal_not_key : in_fa_club_portal ∉ on.
Proof. by apply (bool_decide_eq_false_1 (_ ∈ _)). Qed.

Lemma merged_data_inv :
  ∃ m, merge LA FA on = Ok m ∧
       in_loveadmin ∈ columns m ∧ in_fa_club_portal ∈ columns m ∧
       out = mkDataFrame (columns m) (fill_flags (columns m) <$> rows m).
Proof.
  revert Hout. unfold merged_data, mbind, result_bind.
  destruct (merge LA FA on) as [m|]; [|done].
  exists m. revert Hout. unfold fillna_column.
  destruct (has_label (columns m) in_loveadmin) eqn:H1; [|done]. simpl.
  destruct (has_label (columns m) in_fa_club_portal) eqn:H2; [|done].
  intros [= <-]. apply has_label_true in H1, H2.
  repeat split; try done.
  f_equal. by rewrite <- list_fmap_compose.
Qed.

Lemma fill_flags_length cols row : length (fill_flags cols row) = length row.
Proof. unfold fill_flags. by rewrite !map_at_label_length. Qed.

Lemma fill_flags_lookup cols row i :
  fill_flags cols row !! i =
  match cols !! i with
  | Some c =>
      if bool_decide (c = in_loveadmin ∨ c = in_fa_club_portal)
      then fill (Bool false) <$> row !! i else row !! i
  | None => row !! i
  end.
Proof.
  unfold fill_flags. rewrite !map_at_label_lookup.
  destruct (cols !! i) as [c|]; [|done].
  repeat case_bool_decide; try done; try tauto.
  by destruct (row !! i) as [[]|].
Qed.

Lemma key_of_fill_flags cols row :
  key_of cols on (fill_flags cols row) = key_of cols on row.
Proof.
  unfold fill_flags.
  rewrite !key_of_map_at_label;
    auto using in_loveadmin_not_key, in_fa_club_portal_not_key.
Qed.

Lemma rows_with_key_filled cols rs k :
  rows_with_key (mkDataFrame cols (fill_flags cols <$> rs)) k =
  fill_flags cols <$> filter (λ row, key_of cols on row = k) rs.
Proof.
  unfold rows_with_key, key. cbn [columns rows]. rewrite filter_fmap.
  f_equal. apply list_filter_iff. intros row. by rewrite key_of_fill_flags.
Qed.

Lemma occurrences_flag_loveadmin k :
  occurrences LA k = occurrences (rename standard_names A) k.
Proof.
  apply setitem_occurrences;
    [by apply rename_rectangular|apply in_loveadmin_not_key].
Qed.

Lemma occurrences_flag_fa_club_portal k : occurrences FA k = occurrences B k.
Proof. apply setitem_occurrences; [done|apply in_fa_club_portal_not_key]. Qed.

Lemma merged_occurrences k :
  occurrences out k =
  occurrences LA k * (1 `max` occurrences FA k)
  + (if decide (occurrences LA k = 0) then occurrences FA k else 0).
Proof.
  destruct merged_data_inv as (m & Hm & _ & _ & ->).
  unfold occurrences at 1. rewrite rows_with_key_filled, length_fmap.
  apply (merge_occurrences LA FA on m);
    auto using flag_loveadmin_rectangular, flag_fa_club_portal_rectangular.
  intros k' c Hk'. by apply lsuffix_ne_key.
Qed.

End merged_table.

(** C6. Every key that occurs in either source occurs in the merged table as
    often as the outer join multiplies it: with m occurrences in LoveAdmin
    (under its standardised names) and n in the FA Club Portal table, the
    merged table has max(1,m) * max(1,n) rows for the key; that is one row
    when the key is unique on both sides, and m * n rows when both sides
    have it. *)
Theorem C6_outer_join_multiplicity (A B out : DataFrame) (k : list cell) :
  rectangular A → rectangular B → merged_data A B = Ok out →
  let m := occurrences (pd.rename standard_names A) k in
  let n := occurrences B k in
  0 < m + n →
  occurrences out k = Nat.max 1 m * Nat.max 1 n
  ∧ (m ≤ 1 → n ≤ 1 → occurrences out k = 1)
  ∧ (0 < m → 0 < n → occurrences out k = m * n).
Proof.
  intros HA HB Hout m n Hmn.
  pose proof (merged_occurrences A B out HA Hout k) as Hocc.
  rewrite (occurrences_flag_loveadmin A HA k) in Hocc.
  rewrite (occurrences_flag_fa_club_portal B HB k) in Hocc.
  fold m n in Hocc. rewrite Hocc. clear Hocc.
  destruct m as [|m], n as [|n]; simpl in *; lia.
Qed.

(** ** Where the flag columns sit in the join, and what they hold *)

Section merged_flags.
Import pd.
Context (A B m : DataFrame).
Hypothesis HA : rectangular A.
Hypothesis HB : rectangular B.
Hypothesis Hm : merge (flag_loveadmin A) (flag_fa_club_portal B) key_columns = Ok m.

Local Abbreviation LA := (flag_loveadmin A).
Local Abbreviation FA := (flag_fa_club_portal B).
Local Abbreviation on := key_columns.
Local Abbreviation width := (length (rlabels LA FA on)).

Lemma merge_columns_split : columns m = llabels LA FA on ++ rlabels LA FA on.
Proof. by destruct (merge_inv LA FA on m Hm) as (_ & ? & _). Qed.

Lemma in_loveadmin_left : in_loveadmin ∈ columns LA.
Proof. apply setitem_has_label. Qed.

Lemma in_fa_club_portal_right : in_fa_club_portal ∈ right_labels FA on.
Proof.
  apply list_elem_of_filter. split;
    [apply in_fa_club_portal_not_key|apply setitem_has_label].
Qed.

Lemma llabels_in_loveadmin i :
  llabels LA FA on !! i = Some in_loveadmin → columns LA !! i = Some in_loveadmin.
Proof.
  unfold llabels. rewrite list_lookup_fmap.
  destruct (columns LA !! i) as [x|]; [|done]. simpl. intros [= Hx].
  apply renamer_inv in Hx as [-> _]; [done|].
  intros y. apply suffix_ne_in_loveadmin.
Qed.

Lemma llabels_not_in_fa_club_portal i :
  llabels LA FA on !! i ≠ Some in_fa_club_portal.
Proof.
  unfold llabels. rewrite list_lookup_fmap.
  destruct (columns LA !! i) as [x|] eqn:Hi; [|done]. simpl. intros [= Hx].
  apply renamer_inv in Hx as [-> Hnot]; [|intros y; apply suffix_ne_in_fa_club_portal].
  apply Hnot, list_elem_of_filter. split; [apply in_fa_club_portal_right|].
  by eapply list_elem_of_lookup_2.
Qed.

Lemma rlabels_not_in_loveadmin j :
  rlabels LA FA on !! j ≠ Some in_loveadmin.
Proof.
  unfold rlabels. rewrite list_lookup_fmap.
  destruct (right_labels FA on !! j) as [x|] eqn:Hj; [|done]. simpl. intros [= Hx].
  apply renamer_inv in Hx as [-> Hnot]; [|intros y; apply suffix_ne_in_loveadmin].
  apply Hnot, list_elem_of_filter. split; [|apply in_loveadmin_left].
  by eapply list_elem_of_lookup_2.
Qed.

Lemma rlabels_in_fa_club_portal j :
  rlabels LA FA on !! j = Some in_fa_club_portal →
  right_labels FA on !! j = Some in_fa_club_portal.
Proof.
  unfold rlabels. rewrite list_lookup_fmap.
  destruct (right_labels FA on !! j) as [x|]; [|done]. simpl. intros [= Hx].
  apply renamer_inv in Hx as [-> _]; [done|].
  intros y. apply suffix_ne_in_fa_club_portal.
Qed.

Lemma in_loveadmin_position i :
  columns m !! i = Some in_loveadmin →
  i < length (columns LA) ∧ columns LA !! i = Some in_loveadmin.
Proof.
  rewrite merge_columns_split, lookup_app.
  destruct (llabels LA FA on !! i) as [x|] eqn:Hi.
  - intros [= ->]. split; [|by apply llabels_in_loveadmin].
    apply lookup_lt_Some in Hi. by rewrite llabels_length in Hi.
  - intros Hj. by apply rlabels_not_in_loveadmin in Hj.
Qed.

Lemma in_fa_club_portal_position i :
  columns m !! i = Some in_fa_club_portal →
  length (columns LA) ≤ i ∧ i - length (columns LA) < width ∧
  right_labels FA on !! (i - length (columns LA)) = Some in_fa_club_portal.
Proof.
  rewrite merge_columns_split, lookup_app.
  destruct (llabels LA FA on !! i) as [x|] eqn:Hi.
  - intros [= ->]. by apply llabels_not_in_fa_club_portal in Hi.
  - apply lookup_ge_None in Hi. rewrite llabels_length in Hi.
    rewrite llabels_length. intros Hj. split; [done|]. split.
    + by apply lookup_lt_Some in Hj.
    + by apply rlabels_in_fa_club_portal.
Qed.

Lemma left_row_length l : l ∈ rows LA → length l = length (columns LA).
Proof.
  intros Hl. by eapply (proj1 (Forall_forall _ _) (flag_loveadmin_rectangular A HA)).
Qed.

Lemma right_row_length r : r ∈ rows FA → length r = length (columns FA).
Proof.
  intros Hr.
  by eapply (proj1 (Forall_forall _ _) (flag_fa_club_portal_rectangular B HB)).
Qed.

(** A row that starts with a LoveAdmin row has its flag set. *)
Lemma left_row_flag l x i :
  l ∈ rows LA → columns m !! i = Some in_loveadmin →
  (l ++ x) !! i = Some (Bool true).
Proof.
  intros Hl [Hlt Hi]%in_loveadmin_position.
  pose proof (left_row_length l Hl) as Hlen.
  rewrite lookup_app_l by lia.
  apply (setitem_cells (rename standard_names A) in_loveadmin);
    [by apply rename_rectangular|done|done].
Qed.

(** A row that ends with an FA Club Portal row has that flag set. *)
Lemma right_row_flag l r i :
  length l = length (columns LA) → r ∈ rows FA →
  columns m !! i = Some in_fa_club_portal →
  (l ++ drop_labels on (columns FA) r) !! i = Some (Bool true).
Proof.
  intros Hlen Hr (Hge & _ & Hj)%in_fa_club_portal_position.
  rewrite lookup_app_r by lia. rewrite Hlen.
  destruct (drop_labels_lookup on (columns FA) r _ _ (right_row_length r Hr) Hj)
    as (i' & Hi' & ->).
  by apply (setitem_cells B in_fa_club_portal).
Qed.

Lemma no_right_row_flag l i :
  length l = length (columns LA) →
  columns m !! i = Some in_fa_club_portal →
  (l ++ replicate width NaN) !! i = Some NaN.
Proof.
  intros Hlen (Hge & Hlt & _)%in_fa_club_portal_position.
  rewrite lookup_app_r by lia. rewrite Hlen.
  by apply lookup_replicate_2.
Qed.

Lemma no_left_row_flag r x i :
  columns m !! i = Some in_loveadmin →
  (left_blank (columns LA) (columns FA) on r ++ x) !! i = Some NaN.
Proof.
  intros [Hlt Hi]%in_loveadmin_position.
  rewrite lookup_app_l by (by rewrite left_blank_length).
  erewrite left_blank_lookup by done.
  by rewrite (proj2 (has_label_false on in_loveadmin) in_loveadmin_not_key).
Qed.

Lemma merge_row_kind row : row ∈ rows m → row_kind LA FA on row.
Proof.
  destruct (merge_inv LA FA on m Hm) as (_ & _ & ->).
  intros [Hrow|Hrow]%elem_of_app.
  - apply list_elem_of_bind in Hrow as (l & Hrow & Hl).
    unfold left_block in Hrow.
    destruct (filter _ (rows FA)) as [|r0 rs] eqn:Hf.
    + apply list_elem_of_singleton in Hrow.
      eapply left_only; [done| |done].
      intros r Hr Hk. by apply (filter_nil_not_elem_of _ _ r Hf).
    + apply list_elem_of_fmap in Hrow as (r & -> & Hr).
      rewrite <- Hf in Hr. apply list_elem_of_filter in Hr as [Hk Hr].
      by eapply matched.
  - apply list_elem_of_fmap in Hrow as (r & -> & Hr).
    apply list_elem_of_filter in Hr as [Hall Hr].
    eapply right_only; [done| |done].
    intros l Hl. by apply (proj1 (Forall_forall _ _) Hall).
Qed.

(** Before the fill step a flag cell is set or empty, never anything else. *)
Lemma flag_cell_before_fill row i c :
  row ∈ rows m → columns m !! i = Some c →
  c = in_loveadmin ∨ c = in_fa_club_portal →
  row !! i = Some (Bool true) ∨ row !! i = Some NaN.
Proof.
  intros Hrow Hi Hc. destruct (merge_row_kind row Hrow) as [l r Hl Hr _ ->|l Hl _ ->|r Hr _ ->].
  - left. destruct Hc as [->| ->].
    + by apply left_row_flag.
    + apply right_row_flag; [by apply left_row_length|done|done].
  - destruct Hc as [->| ->].
    + left. by apply left_row_flag.
    + right. apply no_right_row_flag; [by apply left_row_length|done].
  - destruct Hc as [->| ->].
    + right. by apply no_left_row_flag.
    + left. apply right_row_flag; [apply left_blank_length|done|done].
Qed.

Lemma merge_rectangular : rectangular m.
Proof.
  apply Forall_forall. intros row Hrow.
  rewrite merge_columns_split, length_app, llabels_length, rlabels_length.
  destruct (merge_row_kind row Hrow) as [l r Hl Hr _ ->|l Hl _ ->|r Hr _ ->];
    rewrite length_app.
  - rewrite (left_row_length l Hl), drop_labels_length by (by apply right_row_length).
    done.
  - by rewrite (left_row_length l Hl), length_replicate, rlabels_length.
  - rewrite left_blank_length, drop_labels_length by (by apply right_row_length).
    done.
Qed.

Lemma fill_flags_flag_cell cols row i c v :
  cols !! i = Some c → c = in_loveadmin ∨ c = in_fa_club_portal →
  row !! i = Some v → fill_flags cols row !! i = Some (fill (Bool false) v).
Proof.
  intros Hi Hc Hv. rewrite fill_flags_lookup, Hi, Hv.
  by rewrite bool_decide_eq_true_2.
Qed.

Lemma fill_flags_other_cell cols row i c :
  cols !! i = Some c → c ≠ in_loveadmin → c ≠ in_fa_club_portal →
  fill_flags cols row !! i = row !! i.
Proof.
  intros Hi H1 H2. rewrite fill_flags_lookup, Hi.
  rewrite bool_decide_eq_false_2; [done|tauto].
Qed.

Lemma at_label_cells cols row label v :
  label ∈ cols → (∀ i, cols !! i = Some label → row !! i = Some v) →
  at_label cols row label = v.
Proof.
  intros Hin Hcells. unfold at_label.
  destruct (index_of_is_Some label cols Hin) as [i Hi]. rewrite Hi.
  apply index_of_Some in Hi. by rewrite (Hcells i Hi).
Qed.

(** The fill step leaves a matched row as it is. *)
Lemma fill_matched l r :
  l ∈ rows LA → r ∈ rows FA →
  fill_flags (columns m) (l ++ drop_labels on (columns FA) r)
  = l ++ drop_labels on (columns FA) r.
Proof.
  intros Hl Hr. apply list_eq. intros i. rewrite fill_flags_lookup.
  destruct (columns m !! i) as [c|] eqn:Hi; [|done].
  case_bool_decide as Hc; [|done]. destruct Hc as [->| ->].
  - by rewrite (left_row_flag l _ i Hl Hi).
  - by rewrite (right_row_flag l r i (left_row_length l Hl) Hr Hi).
Qed.

Lemma fill_left_part l x :
  l ∈ rows LA → take (length l) (fill_flags (columns m) (l ++ x)) = l.
Proof.
  intros Hl. pose proof (left_row_length l Hl) as Hlen.
  apply list_eq. intros i. destruct (decide (i < length l)) as [Hlt|Hge].
  - rewrite lookup_take_lt, fill_flags_lookup by done.
    rewrite (lookup_app_l l x) by done.
    destruct (columns m !! i) as [c|] eqn:Hi; [|done].
    case_bool_decide as Hc; [|done]. destruct Hc as [->| ->].
    + pose proof (left_row_flag l x i Hl Hi) as Hcell.
      rewrite lookup_app_l in Hcell by done. by rewrite Hcell.
    + apply in_fa_club_portal_position in Hi. lia.
  - rewrite lookup_take_ge by lia. symmetry. apply lookup_ge_None_2. lia.
Qed.

Lemma fill_left_only_rest l i c :
  l ∈ rows LA → length l ≤ i → columns m !! i = Some c →
  c ≠ in_fa_club_portal →
  fill_flags (columns m) (l ++ replicate width NaN) !! i = Some NaN.
Proof.
  intros Hl Hge Hi Hc. pose proof (left_row_length l Hl) as Hlen.
  assert (c ≠ in_loveadmin) as Hc'.
  { intros ->. apply in_loveadmin_position in Hi. lia. }
  rewrite (fill_flags_other_cell _ _ i c) by done.
  rewrite lookup_app_r by done. apply lookup_replicate_2.
  apply lookup_lt_Some in Hi.
  rewrite merge_columns_split, length_app, llabels_length in Hi. lia.
Qed.

Lemma fill_right_part r :
  r ∈ rows FA →
  drop (length (columns LA))
       (fill_flags (columns m)
          (left_blank (columns LA) (columns FA) on r ++ drop_labels on (columns FA) r))
  = drop_labels on (columns FA) r.
Proof.
  intros Hr. apply list_eq. intros j. rewrite lookup_drop, fill_flags_lookup.
  pose proof (left_blank_length (columns LA) (columns FA) on r) as Hlen.
  rewrite (lookup_app_r (left_blank _ _ _ _)) by lia.
  replace (length (columns LA) + j - length (left_blank (columns LA) (columns FA) on r))
    with j by lia.
  destruct (columns m !! (length (columns LA) + j)) as [c|] eqn:Hi; [|done].
  case_bool_decide as Hc; [|done]. destruct Hc as [->| ->].
  - apply in_loveadmin_position in Hi. lia.
  - pose proof (right_row_flag _ r _ Hlen Hr Hi) as Hcell.
    rewrite lookup_app_r in Hcell by lia.
    replace (length (columns LA) + j - length (left_blank (columns LA) (columns FA) on r))
      with j in Hcell by lia.
    by rewrite Hcell.
Qed.

Lemma fill_right_only_rest r x i c :
  i < length (columns LA) → columns m !! i = Some c →
  c ∉ on → c ≠ in_loveadmin →
  fill_flags (columns m) (left_blank (columns LA) (columns FA) on r ++ x) !! i
  = Some NaN.
Proof.
  intros Hlt Hi Hon Hc.
  assert (c ≠ in_fa_club_portal) as Hc'.
  { intros ->. apply in_fa_club_portal_position in Hi. lia. }
  rewrite (fill_flags_other_cell _ _ i c) by done.
  rewrite lookup_app_l by (by rewrite left_blank_length).
  rewrite merge_columns_split, lookup_app_l in Hi by (by rewrite llabels_length).
  unfold llabels in Hi. rewrite list_lookup_fmap in Hi.
  destruct (columns LA !! i) as [c0|] eqn:Hi0; [|done]. simpl in Hi.
  erewrite left_blank_lookup by done.
  destruct (has_label on c0) eqn:Hk; [|done].
  apply has_label_true in Hk. injection Hi as Hi.
  rewrite (key_not_renamed LA FA on c0 Hk) in Hi. by subst.
Qed.

End merged_flags.

Lemma filter_unique {A} (P : A → Prop) `{!∀ x, Decision (P x)} (l : list A) (x : A) :
  x ∈ l → P x → length (filter P l) ≤ 1 → filter P l = [x].
Proof.
  intros Hx HP Hlen.
  assert (x ∈ filter P l) as Hin by (by apply list_elem_of_filter).
  destruct (filter P l) as [|y [|z ys]]; simpl in Hlen; [|..|lia].
  - by apply elem_of_nil in Hin.
  - apply list_elem_of_singleton in Hin. by subst.
Qed.

(** ** The rows of the join that carry one key *)

Section merged_rows.
Import pd.
Context (A B m : DataFrame) (k : list cell).
Hypothesis HA : rectangular A.
Hypothesis HB : rectangular B.
Hypothesis Hm : merge (flag_loveadmin A) (flag_fa_club_portal B) key_columns = Ok m.

Local Abbreviation LA := (flag_loveadmin A).
Local Abbreviation FA := (flag_fa_club_portal B).
Local Abbreviation on := key_columns.

Lemma join_rows_with_key :
  filter (λ row, key_of (columns m) on row = k) (rows m) =
    (filter (λ l, key LA l = k) (rows LA)
       ≫= left_block (columns LA) (columns FA) on (rows FA) (length (rlabels LA FA on)))
    ++ ((λ r, left_blank (columns LA) (columns FA) on r ++ drop_labels on (columns FA) r)
        <$> (if decide (rows_with_key LA k = []) then rows_with_key FA k else [])).
Proof.
  rewrite (merge_rows_with_key LA FA on m); try done.
  - by rewrite right_only_with_key.
  - by apply flag_loveadmin_rectangular.
  - intros k' c Hk'. by apply lsuffix_ne_key.
Qed.

Lemma rows_matched l r :
  l ∈ rows LA → key LA l = k → r ∈ rows FA → key FA r = k →
  occurrences LA k ≤ 1 → occurrences FA k ≤ 1 →
  filter (λ row, key_of (columns m) on row = k) (rows m)
  = [l ++ drop_labels on (columns FA) r].
Proof.
  intros Hl Hlk Hr Hrk HnL HnR. rewrite join_rows_with_key.
  assert (rows_with_key LA k = [l]) as HLk by (by apply filter_unique).
  assert (rows_with_key FA k = [r]) as HRk by (by apply filter_unique).
  unfold rows_with_key in HLk. rewrite HLk, bind_singleton.
  rewrite decide_False by (unfold rows_with_key; by rewrite HLk).
  unfold left_block. fold (key LA l). rewrite Hlk.
  unfold rows_with_key, key in HRk. rewrite HRk. done.
Qed.

Lemma rows_left_only l :
  l ∈ rows LA → key LA l = k →
  occurrences LA k ≤ 1 → occurrences FA k = 0 →
  filter (λ row, key_of (columns m) on row = k) (rows m)
  = [l ++ replicate (length (rlabels LA FA on)) NaN].
Proof.
  intros Hl Hlk HnL HnR. rewrite join_rows_with_key.
  assert (rows_with_key LA k = [l]) as HLk by (by apply filter_unique).
  assert (rows_with_key FA k = []) as HRk by (by apply nil_length_inv).
  unfold rows_with_key in HLk. rewrite HLk, bind_singleton.
  rewrite decide_False by (unfold rows_with_key; by rewrite HLk).
  unfold left_block. fold (key LA l). rewrite Hlk.
  unfold rows_with_key, key in HRk. rewrite HRk. done.
Qed.

Lemma rows_right_only r :
  r ∈ rows FA → key FA r = k →
  occurrences LA k = 0 → occurrences FA k ≤ 1 →
  filter (λ row, key_of (columns m) on row = k) (rows m)
  = [left_blank (columns LA) (columns FA) on r ++ drop_labels on (columns FA) r].
Proof.
  intros Hr Hrk HnL HnR. rewrite join_rows_with_key.
  assert (rows_with_key LA k = []) as HLk by (by apply nil_length_inv).
  assert (rows_with_key FA k = [r]) as HRk by (by apply filter_unique).
  rewrite decide_True by done.
  unfold rows_with_key in HLk. rewrite HLk, HRk. done.
Qed.

End merged_rows.

(** ** Properties of the merged table *)

(** C4. After the fill step no row of the merged table has an empty presence
    flag: both flag columns exist, and every row holds a boolean wherever a
    flag label sits, so that its value in either flag column is a boolean. *)
Theorem C4_flags_never_null (A B out : DataFrame) :
  rectangular A → rectangular B → merged_data A B = Ok out →
  in_loveadmin ∈ columns out ∧ in_fa_club_portal ∈ columns out ∧
  ∀ row, row ∈ rows out →
    (∀ i c, columns out !! i = Some c →
            c = in_loveadmin ∨ c = in_fa_club_portal →
            ∃ b, row !! i = Some (Bool b))
    ∧ (∃ a b, value out row in_loveadmin = Bool a
              ∧ value out row in_fa_club_portal = Bool b).
Proof.
  intros HA HB Hout.
  destruct (merged_data_inv A B out Hout) as (m & Hm & HinA & HinB & ->).
  cbn [columns rows]. split; [done|]. split; [done|].
  intros row (r & -> & Hr)%list_elem_of_fmap.
  assert (∀ i c, columns m !! i = Some c →
                 c = in_loveadmin ∨ c = in_fa_club_portal →
                 ∃ b, fill_flags (columns m) r !! i = Some (Bool b)) as Hcells.
  { intros i c Hi Hc.
    destruct (flag_cell_before_fill A B m HA HB Hm r i c Hr Hi Hc) as [Hv|Hv];
      rewrite (fill_flags_flag_cell _ _ i c _ Hi Hc Hv); simpl; eauto. }
  split; [done|]. unfold value. cbn [columns].
  destruct (index_of_is_Some in_loveadmin (columns m)) as [i Hi]; [done|].
  destruct (index_of_is_Some in_fa_club_portal (columns m)) as [j Hj]; [done|].
  unfold pd.at_label. rewrite Hi, Hj.
  apply index_of_Some in Hi, Hj.
  destruct (Hcells i _ Hi) as [a ->]; [by left|].
  destruct (Hcells j _ Hj) as [b ->]; [by right|].
  by exists a, b.
Qed.

(** C1. The full outer join on (First names, Surname), for a key that neither
    source repeats.  If both sources have the key, the merged table has
    exactly one row for it: the LoveAdmin row followed by the FA Club Portal
    row without its key cells, with both flags true.  If only LoveAdmin has
    it, the one row starts with the LoveAdmin row, has In_LoveAdmin true and
    In_FA_Club_Portal false, and is empty in every other column that comes
    from the FA Club Portal side.  If only the FA Club Portal table has it,
    the one row carries the key, ends with the FA Club Portal row without its
    key cells, has In_LoveAdmin false and In_FA_Club_Portal true, and is
    empty in every other column that comes from the LoveAdmin side. *)
Theorem C1_outer_join_rows (A B out : DataFrame) (k : list cell) :
  rectangular A → rectangular B → merged_data A B = Ok out →
  let LA := flag_loveadmin A in
  let FA := flag_fa_club_portal B in
  occurrences (pd.rename standard_names A) k ≤ 1 → occurrences B k ≤ 1 →
  (∀ l r, l ∈ rows LA → key LA l = k → r ∈ rows FA → key FA r = k →
     let row := l ++ pd.drop_labels key_columns (columns FA) r in
     rows_with_key out k = [row]
     ∧ value out row in_loveadmin = Bool true
     ∧ value out row in_fa_club_portal = Bool true)
  ∧ (∀ l, l ∈ rows LA → key LA l = k → occurrences B k = 0 →
     ∃ row, rows_with_key out k = [row]
       ∧ take (length l) row = l
       ∧ value out row in_loveadmin = Bool true
       ∧ value out row in_fa_club_portal = Bool false
       ∧ ∀ i c, length l ≤ i → columns out !! i = Some c →
                c ≠ in_fa_club_portal → row !! i = Some NaN)
  ∧ (∀ r, r ∈ rows FA → key FA r = k →
     occurrences (pd.rename standard_names A) k = 0 →
     ∃ row, rows_with_key out k = [row]
       ∧ key out row = k
       ∧ drop (length (columns LA)) row = pd.drop_labels key_columns (columns FA) r
       ∧ value out row in_loveadmin = Bool false
       ∧ value out row in_fa_club_portal = Bool true
       ∧ ∀ i c, i < length (columns LA) → columns out !! i = Some c →
                c ∉ key_columns → c ≠ in_loveadmin → row !! i = Some NaN).
Proof.
  intros HA HB Hout LA FA HnA HnB.
  rewrite <- (occurrences_flag_loveadmin A HA k) in HnA |- *.
  rewrite <- (occurrences_flag_fa_club_portal B HB k) in HnB |- *.
  destruct (merged_data_inv A B out Hout) as (m & Hm & HinA & HinB & ->).
  unfold value. cbn [columns]. rewrite !rows_with_key_filled.
  split; [|split].
  - intros l r Hl Hlk Hr Hrk.
    rewrite (rows_matched A B m k HA Hm l r) by done.
    cbn [fmap list_fmap]. rewrite (fill_matched A B m HA HB Hm l r Hl Hr).
    split; [done|]. split; apply at_label_cells; try done; intros i Hi.
    + by apply (left_row_flag A B m HA Hm).
    + apply (right_row_flag A B m HB Hm); [by apply left_row_length|done|done].
  - intros l Hl Hlk HnB0. eexists. split; [|split; [|split; [|split]]].
    + by rewrite (rows_left_only A B m k HA Hm l).
    + by apply (fill_left_part A B m HA Hm).
    + apply at_label_cells; [done|]. intros i Hi.
      erewrite fill_flags_flag_cell; [|done|by left|by apply (left_row_flag A B m HA Hm)].
      done.
    + apply at_label_cells; [done|]. intros i Hi.
      erewrite fill_flags_flag_cell;
        [|done|by right|
         apply (no_right_row_flag A B m Hm); [by apply left_row_length|done]].
      done.
    + intros i c Hge Hi Hc. by apply (fill_left_only_rest A B m HA Hm l i c).
  - intros r Hr Hrk HnA0. eexists. split; [|split; [|split; [|split; [|split]]]].
    + by rewrite (rows_right_only A B m k HA Hm r).
    + unfold key at 1. cbn [columns]. rewrite key_of_fill_flags, <- Hrk.
      apply (key_of_right_only LA FA key_columns m Hm).
      intros k' c Hk'. by apply lsuffix_ne_key.
    + by apply (fill_right_part A B m HB Hm).
    + apply at_label_cells; [done|]. intros i Hi.
      erewrite fill_flags_flag_cell;
        [|done|by left|by apply (no_left_row_flag A B m Hm)].
      done.
    + apply at_label_cells; [done|]. intros i Hi.
      erewrite fill_flags_flag_cell;
        [|done|by right|
         apply (right_row_flag A B m HB Hm); [apply left_blank_length|done|done]].
      done.
    + intros i c Hlt Hi Hc Hc'. by apply (fill_right_only_rest A B m Hm r _ i c).
Qed.

(** ** Merging a table with itself *)

Section unique_labels.
Import pd.

Lemma unique_label_position (cols : list string) k p q :
  length (filter (λ c, c = k) cols) ≤ 1 →
  cols !! p = Some k → cols !! q = Some k → p = q.
Proof.
  revert p q. induction cols as [|c cols IH]; intros p q; [done|].
  rewrite filter_cons. destruct (decide (c = k)) as [->|Hne]; simpl.
  - intros Hlen. assert (filter (λ c, c = k) cols = []) as Hnil
      by (apply nil_length_inv; lia).
    assert (∀ i, cols !! i ≠ Some k) as Hnone.
    { intros i Hi. apply (filter_nil_not_elem_of _ _ k Hnil); [done|].
      by eapply list_elem_of_lookup_2. }
    destruct p as [|p], q as [|q]; simpl; try done.
    + intros _ Hq. by apply Hnone in Hq.
    + intros Hp. by apply Hnone in Hp.
    + intros Hp. by apply Hnone in Hp.
  - intros Hlen. destruct p as [|p], q as [|q]; simpl; try congruence.
    intros Hp Hq. f_equal. by apply IH.
Qed.

Lemma index_of_unique cols k p :
  length (filter (λ c, c = k) cols) ≤ 1 →
  cols !! p = Some k → index_of k cols = Some p.
Proof.
  intros Hlen Hp.
  destruct (index_of_is_Some k cols) as [q Hq]; [by eapply list_elem_of_lookup_2|].
  rewrite Hq. f_equal. apply index_of_Some in Hq.
  by apply (unique_label_position cols k).
Qed.

Lemma check_label_unique cols k :
  check_label cols k = Ok () → length (filter (λ c, c = k) cols) ≤ 1.
Proof.
  unfold check_label. destruct (has_label cols k); [|done]. simpl.
  case_bool_decide; [done|]. intros _. lia.
Qed.

Lemma get_merge_keys_unique lcols rcols ks :
  get_merge_keys lcols rcols ks = Ok () →
  ∀ k, k ∈ ks → length (filter (λ c, c = k) lcols) ≤ 1.
Proof.
  induction ks as [|k0 ks IH]; simpl.
  - intros _ k Hk. by apply elem_of_nil in Hk.
  - unfold mbind, result_bind.
    destruct (check_label rcols k0) as [[]|] eqn:Hr; [|done].
    destruct (check_label lcols k0) as [[]|] eqn:Hl; [|done].
    intros Hks k [->|Hk]%elem_of_cons; [|by apply IH].
    by apply check_label_unique.
Qed.

Lemma setitem_label_count df label v k :
  length (filter (λ c, c = k) (columns df))
  ≤ length (filter (λ c, c = k) (columns (setitem df label v))).
Proof.
  unfold setitem. destruct (has_label _ _); simpl; [done|].
  rewrite filter_app, length_app. lia.
Qed.

Lemma rename_key_label k : k ∈ key_columns → rename_label standard_names k = k.
Proof.
  unfold key_columns. rewrite !elem_of_cons, elem_of_nil.
  by intros [->|[->|[]]].
Qed.

(** When the join of a table with itself goes through, renaming has not
    moved the key columns: a row has the same key before and after. *)
Lemma key_rename_same T m t :
  merge (flag_loveadmin T) (flag_fa_club_portal T) key_columns = Ok m →
  key (rename standard_names T) t = key T t.
Proof.
  intros Hm. destruct (merge_inv _ _ _ _ Hm) as (Hkeys & _ & _).
  unfold key, key_of. apply list_fmap_ext. intros i k Hk.
  apply list_elem_of_lookup_2 in Hk.
  destruct (get_merge_keys_inv _ _ _ Hkeys k Hk) as [_ HkR].
  pose proof (get_merge_keys_unique _ _ _ Hkeys k Hk) as Huniq.
  apply setitem_other_label in HkR;
    [|intros ->; by apply in_fa_club_portal_not_key in Hk].
  destruct (index_of_is_Some k (columns T) HkR) as [p Hp].
  unfold at_label. rewrite Hp. apply index_of_Some in Hp.
  rewrite (index_of_unique _ k p); [done| |].
  - etrans; [|exact Huniq]. apply setitem_label_count.
  - simpl. rewrite list_lookup_fmap, Hp. simpl. by rewrite rename_key_label.
Qed.

End unique_labels.

Section self_merge.
Import pd.
Context (T out m : DataFrame).
Hypothesis HT : rectangular T.
Hypothesis Hm : merge (flag_loveadmin T) (flag_fa_club_portal T) key_columns = Ok m.

Local Abbreviation LA := (flag_loveadmin T).
Local Abbreviation FA := (flag_fa_club_portal T).
Local Abbreviation on := key_columns.

(** Each source row, once flagged on either side, keeps its key. *)
Lemma self_rows :
  ∃ h1 h2, rows LA = h1 <$> rows T ∧ rows FA = h2 <$> rows T ∧
    ∀ t, t ∈ rows T → key LA (h1 t) = key T t ∧ key FA (h2 t) = key T t.
Proof.
  destruct (setitem_rows (rename standard_names T) in_loveadmin (Bool true) on
              in_loveadmin_not_key) as (h1 & H1 & Hk1).
  destruct (setitem_rows T in_fa_club_portal (Bool true) on
              in_fa_club_portal_not_key) as (h2 & H2 & Hk2).
  exists h1, h2. split; [done|]. split; [done|].
  intros t Ht. assert (length t = length (columns T)) as Hlen
    by (by apply (proj1 (Forall_forall _ _) HT)).
  split.
  - unfold key. unfold flag_loveadmin. rewrite Hk1.
    + by apply (key_rename_same T m).
    + simpl. by rewrite length_fmap.
  - unfold key. unfold flag_fa_club_portal. by rewrite Hk2.
Qed.

(** Every row of the join pairs a left row with a right row. *)
Lemma self_merge_matched row :
  row ∈ rows m →
  ∃ l r, l ∈ rows LA ∧ r ∈ rows FA ∧ row = l ++ drop_labels on (columns FA) r.
Proof.
  intros Hrow. destruct self_rows as (h1 & h2 & H1 & H2 & Hk).
  destruct (merge_row_kind T T m Hm row Hrow) as [l r Hl Hr _ ->|l Hl Hno _|r Hr Hno _].
  - by exists l, r.
  - exfalso. rewrite H1 in Hl. apply list_elem_of_fmap in Hl as (t & -> & Ht).
    apply (Hno (h2 t)); [rewrite H2; by apply list_elem_of_fmap_2|].
    destruct (Hk t Ht) as [Ha Hb]. unfold key in Ha, Hb. congruence.
  - exfalso. rewrite H2 in Hr. apply list_elem_of_fmap in Hr as (t & -> & Ht).
    apply (Hno (h1 t)); [rewrite H1; by apply list_elem_of_fmap_2|].
    destruct (Hk t Ht) as [Ha Hb]. unfold key in Ha, Hb. congruence.
Qed.

Lemma self_occurrences k :
  occurrences LA k = occurrences T k ∧ occurrences FA k = occurrences T k.
Proof.
  split.
  - rewrite (occurrences_flag_loveadmin T HT k). unfold occurrences, rows_with_key.
    f_equal. apply list_filter_iff. intros t. simpl.
    by rewrite (key_rename_same T m t Hm).
  - apply (occurrences_flag_fa_club_portal T HT).
Qed.

Lemma self_merge_length :
  (∀ k, occurrences T k ≤ 1) → length (rows m) = length (rows T).
Proof.
  intros Huniq. destruct self_rows as (h1 & h2 & H1 & H2 & Hk).
  destruct (merge_inv _ _ _ _ Hm) as (_ & _ & ->).
  rewrite length_app, length_fmap.
  rewrite (length_bind_const _ 1).
  - rewrite filter_none; [rewrite H1, length_fmap; simpl; lia|].
    apply Forall_forall. intros r Hr Hall.
    rewrite H2 in Hr. apply list_elem_of_fmap in Hr as (t & -> & Ht).
    rewrite Forall_forall in Hall.
    apply (Hall (h1 t)); [rewrite H1; by apply list_elem_of_fmap_2|].
    destruct (Hk t Ht) as [Ha Hb]. unfold key in Ha, Hb. congruence.
  - apply Forall_forall. intros l Hl.
    rewrite (left_block_length LA FA on _ l eq_refl).
    change (1 `max` occurrences FA (key LA l) = 1).
    destruct (self_occurrences (key LA l)) as [_ ->].
    assert (0 < occurrences T (key LA l)); [|specialize (Huniq (key LA l)); lia].
    rewrite H1 in Hl. apply list_elem_of_fmap in Hl as (t & -> & Ht).
    destruct (Hk t Ht) as [-> _]. unfold occurrences, rows_with_key.
    assert (t ∈ filter (λ row, key T row = key T t) (rows T)) as Hin
      by (by apply list_elem_of_filter).
    destruct (filter _ (rows T)); [by apply elem_of_nil in Hin|simpl; lia].
Qed.

End self_merge.

(** C8, as the scripts have it.  Merging a table with itself gives a merged
    table in which every row has both flags true, and a key that occurs n
    times in the table occurs n * n times in the merged table; the merged
    table has as many rows as the table when no key occurs twice. *)
Theorem C8_self_merge (T out : DataFrame) :
  rectangular T → merged_data T T = Ok out →
  (∀ row, row ∈ rows out →
     value out row in_loveadmin = Bool true
     ∧ value out row in_fa_club_portal = Bool true)
  ∧ (∀ k, occurrences out k = occurrences T k * occurrences T k)
  ∧ ((∀ k, occurrences T k ≤ 1) → length (rows out) = length (rows T)).
Proof.
  intros HT Hout.
  pose proof (merged_occurrences T T out HT Hout) as Hocc.
  destruct (merged_data_inv T T out Hout) as (m & Hm & HinA & HinB & ->).
  split; [|split].
  - intros row (r & -> & Hr)%list_elem_of_fmap.
    destruct (self_merge_matched T m HT Hm r Hr) as (l & r' & Hl & Hr' & ->).
    rewrite (fill_matched T T m HT HT Hm l r' Hl Hr').
    unfold value. cbn [columns].
    split; apply at_label_cells; try done; intros i Hi.
    + by apply (left_row_flag T T m HT Hm).
    + apply (right_row_flag T T m HT Hm); [by apply left_row_length|done|done].
  - intros k. rewrite Hocc.
    destruct (self_occurrences T m HT Hm k) as [-> ->].
    destruct (occurrences T k) as [|n]; simpl; lia.
  - intros Huniq. cbn [rows]. rewrite length_fmap.
    by apply (self_merge_length T m HT Hm).
Qed.

(** C8 as stated fails for a table that lists a player twice: the merged
    table then has four rows for the two of the table. *)
Lemma C8_duplicates_multiply_rows :
  ¬ (∀ T out : DataFrame,
       rectangular T → merged_data T T = Ok out →
       (∀ row, row ∈ rows out →
          value out row in_loveadmin = Bool true
          ∧ value out row in_fa_club_portal = Bool true)
       ∧ length (rows out) = length (rows T)).
Proof.
  intros H.
  destruct (merged_data twins twins) as [out|] eqn:Hout; [|by vm_compute in Hout].
  destruct (H twins out) as [_ Hlen]; [by repeat constructor|done|].
  vm_compute in Hout. injection Hout as <-. by vm_compute in Hlen.
Qed.

(** ** Runs of the two scripts *)

Ltac unfold_script :=
  unfold run, merge_datasets, validate_and_merge, reconcile, try_except, read_excel,
    to_excel, lift, raise, logger_info, logger_debug, logger_error, emit,
    mbind, prog_bind, mret, prog_ret; cbn [files trace app].

Ltac no_event H :=
  repeat (apply elem_of_cons in H as [H|H]; [discriminate H|]);
  by apply elem_of_nil in H.

Ltac no_write := by repeat split; try done; intros p Hp; no_event Hp.

Section runs.
Import pd.

Lemma fit_length n row : length (fit n row) = n.
Proof.
  unfold fit. rewrite length_take, length_app, length_replicate. lia.
Qed.

Lemma read_sheet_rectangular n s : rectangular (read_sheet n s).
Proof.
  unfold rectangular, read_sheet. destruct (drop n s) as [|header data]; simpl.
  - constructor.
  - apply Forall_fmap, Forall_forall. intros row _. simpl.
    by rewrite fit_length, length_imap.
Qed.

Lemma read_sheet_cons header data :
  read_sheet 0 (header :: data)
  = mkDataFrame (imap header_label header) (fit (length header) <$> data).
Proof. done. Qed.


(** The result and the files of a run of [merge_datasets], in terms of the
    merged table. *)
Lemma merge_datasets_run fs pA pB pO :
  let r := run (merge_datasets pA pB pO) fs in
  match merged_from fs pA pB with
  | Ok out =>
      r.1 = Ok () ∧ files r.2 = <[pO := to_sheet out]> fs
      ∧ trace r.2 = cli_success_trace pA pB pO
  | Raise e =>
      r.1 = Raise e ∧ files r.2 = fs ∧ ∀ p, ToExcel p ∉ trace r.2
  end.
Proof.
  unfold merged_from, load, merged_data. unfold_script.
  unfold mbind, result_bind.
  destruct (fs !! pA) as [sA|]; cbn [files trace app fst snd];
    [|by repeat split; try done; intros p Hp; no_event Hp].
  destruct (fs !! pB) as [sB|]; cbn [files trace app fst snd];
    [|by repeat split; try done; intros p Hp; no_event Hp].
  fold (flag_loveadmin (read_sheet 0 sA)) (flag_fa_club_portal (read_sheet 6 sB)).
  destruct (merge _ _ _) as [m|e]; cbn [files trace app fst snd];
    [|by repeat split; try done; intros p Hp; no_event Hp].
  destruct (fillna_column m in_loveadmin _) as [m1|e]; cbn [files trace app fst snd];
    [|by repeat split; try done; intros p Hp; no_event Hp].
  destruct (fillna_column m1 in_fa_club_portal _) as [m2|e]; cbn [files trace app fst snd];
    [|by repeat split; try done; intros p Hp; no_event Hp].
  done.
Qed.

(** The comprehension of the reorder step reads a name that has no value
    yet, as soon as the merged table has a column. *)
Lemma remaining_columns_unbound cols :
  cols ≠ [] → remaining_columns None cols = Raise (NameError "columns_order").
Proof. by destruct cols. Qed.

Lemma fillna_column_columns df label v df' :
  fillna_column df label v = Ok df' → columns df' = columns df ∧ label ∈ columns df.
Proof.
  unfold fillna_column. destruct (has_label _ _) eqn:H; [|done].
  intros [= <-]. split; [done|]. by apply has_label_true.
Qed.

(** The handler of the window never reaches its write. *)
Lemma validate_and_merge_never_writes f fs :
  let r := run (validate_and_merge f) fs in
  r.1 = Ok () ∧ files r.2 = fs ∧ ∀ p, ToExcel p ∉ trace r.2.
Proof.
  unfold_script.
  destruct (py_not _ || py_not _ || py_not _); cbn [files trace app fst snd];
    [by repeat split; try done; intros p Hp; no_event Hp|].
  destruct (fs !! loveadmin_file_var f) as [sA|]; cbn [files trace app fst snd];
    [|by repeat split; try done; intros p Hp; no_event Hp].
  destruct (fs !! fa_club_portal_file_var f) as [sB|]; cbn [files trace app fst snd];
    [|by repeat split; try done; intros p Hp; no_event Hp].
  destruct (negb _ || negb _); cbn [files trace app fst snd];
    [by repeat split; try done; intros p Hp; no_event Hp|].
  destruct (negb _ || negb _); cbn [files trace app fst snd];
    [by repeat split; try done; intros p Hp; no_event Hp|].
  destruct (merge _ _ _) as [m|e]; cbn [files trace app fst snd];
    [|by repeat split; try done; intros p Hp; no_event Hp].
  destruct (fillna_column m in_loveadmin _) as [m1|e]; cbn [files trace app fst snd];
    [|by repeat split; try done; intros p Hp; no_event Hp].
  destruct (fillna_column m1 in_fa_club_portal _) as [m2|e] eqn:H2;
    cbn [files trace app fst snd];
    [|by repeat split; try done; intros p Hp; no_event Hp].
  apply fillna_column_columns in H2 as [Hcols Hin].
  rewrite remaining_columns_unbound; cbn [files trace app fst snd].
  - by repeat split; try done; intros p Hp; no_event Hp.
  - rewrite Hcols. intros Hnil. rewrite Hnil in Hin. by apply elem_of_nil in Hin.
Qed.

End runs.

(** ** Properties of the runs *)

(** C5. A run that fails leaves the file system as it found it and has
    written nothing: the write is the last step that can change a file.  For
    the command-line script a failure is the exception it re-raises; for the
    window it is the error dialog. *)
Theorem C5_failure_leaves_no_output (fs : gmap string sheet)
    (loveadmin_path fa_club_portal_path output_path : string) (f : form) :
  (∀ e, (run (merge_datasets loveadmin_path fa_club_portal_path output_path) fs).1
        = Raise e →
     files (run (merge_datasets loveadmin_path fa_club_portal_path output_path) fs).2 = fs
     ∧ ∀ p, ToExcel p ∉
            trace (run (merge_datasets loveadmin_path fa_club_portal_path output_path) fs).2)
  ∧ (∀ msg, ShowError "Error" msg ∈ trace (run (validate_and_merge f) fs).2 →
     files (run (validate_and_merge f) fs).2 = fs
     ∧ ∀ p, ToExcel p ∉ trace (run (validate_and_merge f) fs).2).
Proof.
  split.
  - intros e He.
    pose proof (merge_datasets_run fs loveadmin_path fa_club_portal_path output_path) as Hrun.
    cbn zeta in Hrun. destruct (merged_from _ _ _) as [out|e'].
    + destruct Hrun as (Hok & _). congruence.
    + by destruct Hrun as (_ & ? & ?).
  - intros msg _. by destruct (validate_and_merge_never_writes f fs) as (_ & ? & ?).
Qed.

Lemma C5_failure_leaves_no_output_witness :
  files (run (merge_datasets "a.xlsx" "b.xlsx" "out.xlsx") ∅).2 = ∅
  ∧ files (run (validate_and_merge (mkForm "a.xlsx" EmptyString "out.xlsx")) ∅).2 = ∅.
Proof.
  destruct (C5_failure_leaves_no_output ∅ "a.xlsx" "b.xlsx" "out.xlsx"
              (mkForm "a.xlsx" EmptyString "out.xlsx")) as [Hcli Hgui].
  split.
  - apply (Hcli (FileNotFoundError "a.xlsx")). reflexivity.
  - apply (Hgui (Text "Please select all required files.")).
    apply list_elem_of_here.
Defined.

(** C7. [merge_datasets] is a function of its inputs: two runs from file
    systems that hold the same two input files end the same way, log the
    same events and, when they succeed, write the same table; and running
    the script again on its own result, with an output path that is neither
    input, changes nothing. *)
Theorem C7_deterministic (fs1 fs2 : gmap string sheet)
    (loveadmin_path fa_club_portal_path output_path : string) :
  fs1 !! loveadmin_path = fs2 !! loveadmin_path →
  fs1 !! fa_club_portal_path = fs2 !! fa_club_portal_path →
  let r1 := run (merge_datasets loveadmin_path fa_club_portal_path output_path) fs1 in
  let r2 := run (merge_datasets loveadmin_path fa_club_portal_path output_path) fs2 in
  r1.1 = r2.1
  ∧ trace r1.2 = trace r2.2
  ∧ (r1.1 = Ok () → files r1.2 !! output_path = files r2.2 !! output_path)
  ∧ (output_path ≠ loveadmin_path → output_path ≠ fa_club_portal_path →
     files (run (merge_datasets loveadmin_path fa_club_portal_path output_path)
                (files r1.2)).2 = files r1.2).
Proof.
  intros HA HB r1 r2. split; [|split; [|split]].
  - subst r1 r2. unfold_script. rewrite <- HA.
    destruct (fs1 !! loveadmin_path); cbn [files trace app fst snd]; [|done].
    rewrite <- HB.
    destruct (fs1 !! fa_club_portal_path); cbn [files trace app fst snd]; [|done].
    destruct (pd.merge _ _ _) as [m|]; cbn [files trace app fst snd]; [|done].
    destruct (pd.fillna_column m _ _) as [m1|]; cbn [files trace app fst snd]; [|done].
    by destruct (pd.fillna_column m1 _ _) as [m2|].
  - subst r1 r2. unfold_script. rewrite <- HA.
    destruct (fs1 !! loveadmin_path); cbn [files trace app fst snd]; [|done].
    rewrite <- HB.
    destruct (fs1 !! fa_club_portal_path); cbn [files trace app fst snd]; [|done].
    destruct (pd.merge _ _ _) as [m|]; cbn [files trace app fst snd]; [|done].
    destruct (pd.fillna_column m _ _) as [m1|]; cbn [files trace app fst snd]; [|done].
    by destruct (pd.fillna_column m1 _ _) as [m2|].
  - pose proof (merge_datasets_run fs1 loveadmin_path fa_club_portal_path output_path) as H1.
    pose proof (merge_datasets_run fs2 loveadmin_path fa_club_portal_path output_path) as H2.
    cbn zeta in H1, H2. fold r1 in H1. fold r2 in H2.
    assert (merged_from fs2 loveadmin_path fa_club_portal_path
            = merged_from fs1 loveadmin_path fa_club_portal_path) as Hsame
      by (unfold merged_from, load; by rewrite HA, HB).
    rewrite Hsame in H2.
    destruct (merged_from fs1 _ _) as [out|e].
    + destruct H1 as (_ & -> & _), H2 as (_ & -> & _).
      intros _. by rewrite !lookup_insert_eq.
    + destruct H1 as (-> & _). done.
  - intros HneA HneB.
    pose proof (merge_datasets_run fs1 loveadmin_path fa_club_portal_path output_path) as H1.
    cbn zeta in H1. fold r1 in H1.
    pose proof (merge_datasets_run (files r1.2) loveadmin_path fa_club_portal_path
                  output_path) as H2.
    cbn zeta in H2.
    assert (merged_from (files r1.2) loveadmin_path fa_club_portal_path
            = merged_from fs1 loveadmin_path fa_club_portal_path) as Hsame.
    { unfold merged_from, load.
      destruct (merged_from fs1 _ _) as [out|e].
      - destruct H1 as (_ & -> & _). by rewrite !lookup_insert_ne.
      - by destruct H1 as (_ & -> & _). }
    rewrite Hsame in H2.
    destruct (merged_from fs1 _ _) as [out|e].
    + destruct H1 as (_ & H1 & _), H2 as (_ & H2 & _).
      rewrite H2, H1. apply insert_insert_eq.
    + by destruct H2 as (_ & ? & _).
Qed.

Lemma C7_deterministic_witness :
  (run (merge_datasets "a.xlsx" "b.xlsx" "out.xlsx") sample_files).1
  = (run (merge_datasets "a.xlsx" "b.xlsx" "out.xlsx") more_files).1
  ∧ files (run (merge_datasets "a.xlsx" "b.xlsx" "out.xlsx") sample_files).2 !! "out.xlsx"
    = files (run (merge_datasets "a.xlsx" "b.xlsx" "out.xlsx") more_files).2 !! "out.xlsx".
Proof.
  destruct (C7_deterministic sample_files more_files "a.xlsx" "b.xlsx" "out.xlsx")
    as (Hres & _ & Hout & _); [reflexivity|reflexivity|].
  split; [exact Hres|]. apply Hout. reflexivity.
Defined.

(** C10. The handler of the window, when one of its three path fields is
    empty, shows the error dialog and does nothing else: no file is read and
    none is written.  It reads a file only when all three are filled in, and
    then it does start on the merge. *)
Theorem C10_gui_requires_all_paths (f : form) (fs : gmap string sheet) :
  let r := run (validate_and_merge f) fs in
  (loveadmin_file_var f = EmptyString ∨ fa_club_portal_file_var f = EmptyString
   ∨ output_file_var f = EmptyString →
   r = (Ok (), mkWorld fs [ShowError "Error" (Text "Please select all required files.")]))
  ∧ (∀ p, ReadExcel p ∈ trace r.2 ∨ ToExcel p ∈ trace r.2 →
     loveadmin_file_var f ≠ EmptyString ∧ fa_club_portal_file_var f ≠ EmptyString
     ∧ output_file_var f ≠ EmptyString)
  ∧ (loveadmin_file_var f ≠ EmptyString → fa_club_portal_file_var f ≠ EmptyString →
     output_file_var f ≠ EmptyString →
     head (trace r.2) = Some (Log INFO (Text "Loading LoveAdmin data..."))).
Proof.
  intros r.
  assert (loveadmin_file_var f = EmptyString ∨ fa_club_portal_file_var f = EmptyString
          ∨ output_file_var f = EmptyString →
          r = (Ok (), mkWorld fs
                 [ShowError "Error" (Text "Please select all required files.")])) as Hempty.
  { intros Hor. subst r. unfold run, validate_and_merge.
    replace (py_not _ || py_not _ || py_not _) with true; [done|].
    symmetry. unfold py_not.
    destruct Hor as [->|[->| ->]]; by rewrite ?orb_true_r. }
  split; [done|]. split.
  - intros p Hp.
    destruct (decide (loveadmin_file_var f = EmptyString)) as [HA|HA];
      [|destruct (decide (fa_club_portal_file_var f = EmptyString)) as [HB|HB];
        [|destruct (decide (output_file_var f = EmptyString)) as [HO|HO]; [|done]]].
    all: exfalso; rewrite Hempty in Hp by tauto; cbn [snd trace] in Hp;
      destruct Hp as [Hp|Hp]; no_event Hp.
  - intros HA HB HO. subst r. unfold run, validate_and_merge.
    replace (py_not _ || py_not _ || py_not _) with false.
    + unfold_script.
      destruct (fs !! loveadmin_file_var f); cbn [files trace app fst snd]; [|done].
      destruct (fs !! fa_club_portal_file_var f); cbn [files trace app fst snd]; [|done].
      destruct (negb _ || negb _); cbn [files trace app fst snd]; [done|].
      destruct (negb _ || negb _); cbn [files trace app fst snd]; [done|].
      destruct (pd.merge _ _ _) as [m|]; cbn [files trace app fst snd]; [|done].
      destruct (pd.fillna_column m _ _) as [m1|]; cbn [files trace app fst snd]; [|done].
      destruct (pd.fillna_column m1 _ _) as [m2|]; cbn [files trace app fst snd]; [|done].
      destruct (remaining_columns _ _) as [rest|]; cbn [files trace app fst snd]; [|done].
      by destruct (pd.getitem_list _ _) as [m3|].
    + symmetry. unfold py_not.
      by rewrite !bool_decide_eq_false_2.
Qed.

Lemma C10_gui_requires_all_paths_witness :
  run (validate_and_merge (mkForm "a.xlsx" EmptyString "out.xlsx")) sample_files
  = (Ok (), mkWorld sample_files
              [ShowError "Error" (Text "Please select all required files.")])
  ∧ head (trace (run (validate_and_merge (mkForm "a.xlsx" "b.xlsx" "out.xlsx"))
                     sample_files).2)
    = Some (Log INFO (Text "Loading LoveAdmin data...")).
Proof.
  split.
  - apply (C10_gui_requires_all_paths (mkForm "a.xlsx" EmptyString "out.xlsx")
             sample_files).
    right. left. reflexivity.
  - apply (C10_gui_requires_all_paths (mkForm "a.xlsx" "b.xlsx" "out.xlsx")
             sample_files); discriminate.
Defined.






(** C3: what the reorder step of the window does.  On the sample files the
    merge up to the fill step succeeds; the comprehension then reads
    [columns_order] before the assignment has given it a value, NameError is
    raised, the handler shows it in the error dialog and nothing is written.
    With the name bound to the preferred list first, the order would have
    been the one the claim describes. *)
Theorem C3_reorder_raises_name_error :
  let r := run (validate_and_merge (mkForm "a.xlsx" "b.xlsx" "out.xlsx")) sample_files in
  merged_from sample_files "a.xlsx" "b.xlsx" = Ok sample_merged
  ∧ remaining_columns None (columns sample_merged) = Raise (NameError "columns_order")
  ∧ last (trace r.2)
    = Some (ShowError "Error" (WithExn "An error occurred: " (NameError "columns_order")))
  ∧ files r.2 = sample_files
  ∧ intended_columns_order (columns sample_merged)
    = Ok ["First names"; "Surname"; "In_LoveAdmin"; "In_FA_Club_Portal"; "Team";
          "Active mandates"].
Proof. vm_compute. done. Qed.

(** C2: what the two scripts do with a LoveAdmin sheet that lacks "Last name"
    and "First name".  The window checks the columns and shows the
    ValueError before it merges; the command-line script has no such check:
    when the sheet has the standardised names instead it merges and writes
    its output, and when a key column is missing altogether the exception is
    the KeyError of [pd.merge] itself. *)
Theorem C2_cli_has_no_column_check :
  let A := pd.read_sheet 0 sheet_A_standard in
  let cli := run (merge_datasets "std.xlsx" "b.xlsx" "out.xlsx") more_files in
  let gui := run (validate_and_merge (mkForm "std.xlsx" "b.xlsx" "out.xlsx")) more_files in
  pd.has_label (columns A) "Last name" = false
  ∧ pd.has_label (columns A) "First name" = false
  ∧ cli.1 = Ok ()
  ∧ trace cli.2 = cli_success_trace "std.xlsx" "b.xlsx" "out.xlsx"
  ∧ is_Some (files cli.2 !! "out.xlsx")
  ∧ trace gui.2
    = [ Log INFO (Text "Loading LoveAdmin data...");
        ReadExcel "std.xlsx";
        Log INFO (Text "Loading FA Club Portal data...");
        ReadExcel "b.xlsx";
        Log ERROR (WithExn "An error occurred: " (ValueError
          "LoveAdmin file does not contain required columns: 'Last name', 'First name'."));
        ShowError "Error" (WithExn "An error occurred: " (ValueError
          "LoveAdmin file does not contain required columns: 'Last name', 'First name'.")) ]
  ∧ files gui.2 = more_files
  ∧ (run (merge_datasets "a.xlsx" "bare.xlsx" "out.xlsx") more_files).1
    = Raise (KeyError "First names").
Proof. vm_compute. repeat split; eauto. Qed.

(** ** The sample tables *)

Lemma sample_merged_data : merged_data sample_A sample_B = Ok sample_merged.
Proof. reflexivity. Qed.

Lemma C1_outer_join_rows_witness :
  rows_with_key sample_merged jo_lee
  = [[Str "Jo"; Str "Lee"; Str "U7"; Bool true; Int 1; Bool true]]
  ∧ (∃ row, rows_with_key sample_merged sam_fox = [row]
            ∧ value sample_merged row in_fa_club_portal = Bool false)
  ∧ (∃ row, rows_with_key sample_merged al_roe = [row]
            ∧ value sample_merged row in_loveadmin = Bool false).
Proof.
  split; [|split].
  - destruct (C1_outer_join_rows sample_A sample_B sample_merged jo_lee)
      as (Hboth & _ & _);
      [apply read_sheet_rectangular|apply read_sheet_rectangular|reflexivity
      |vm_compute; lia|vm_compute; lia|].
    destruct (Hboth [Str "Jo"; Str "Lee"; Str "U7"; Bool true]
                    [Str "Jo"; Str "Lee"; Int 1; Bool true]) as (Hrows & _);
      [vm_compute; apply list_elem_of_here|reflexivity
      |vm_compute; apply list_elem_of_here|reflexivity|].
    exact Hrows.
  - destruct (C1_outer_join_rows sample_A sample_B sample_merged sam_fox)
      as (_ & Hleft & _);
      [apply read_sheet_rectangular|apply read_sheet_rectangular|reflexivity
      |vm_compute; lia|vm_compute; lia|].
    destruct (Hleft [Str "Sam"; Str "Fox"; Str "U9"; Bool true])
      as (row & Hrows & _ & _ & Hflag & _);
      [vm_compute; apply list_elem_of_further, list_elem_of_here|reflexivity
      |reflexivity|].
    exists row. split; [exact Hrows|exact Hflag].
  - destruct (C1_outer_join_rows sample_A sample_B sample_merged al_roe)
      as (_ & _ & Hright);
      [apply read_sheet_rectangular|apply read_sheet_rectangular|reflexivity
      |vm_compute; lia|vm_compute; lia|].
    destruct (Hright [Str "Al"; Str "Roe"; Int 0; Bool true])
      as (row & Hrows & _ & _ & Hflag & _);
      [vm_compute; apply list_elem_of_further, list_elem_of_here|reflexivity
      |reflexivity|].
    exists row. split; [exact Hrows|exact Hflag].
Defined.

Lemma C4_flags_never_null_witness :
  in_loveadmin ∈ columns sample_merged ∧ in_fa_club_portal ∈ columns sample_merged.
Proof.
  destruct (C4_flags_never_null sample_A sample_B sample_merged)
    as (HA & HB & _);
    [apply read_sheet_rectangular|apply read_sheet_rectangular|reflexivity|].
  split; [exact HA|exact HB].
Defined.

Lemma C6_outer_join_multiplicity_witness :
  occurrences sample_merged jo_lee = 1.
Proof.
  destruct (C6_outer_join_multiplicity sample_A sample_B sample_merged jo_lee)
    as (_ & Hone & _);
    [apply read_sheet_rectangular|apply read_sheet_rectangular|reflexivity
    |vm_compute; lia|].
  apply Hone; vm_compute; lia.
Defined.

Lemma C8_self_merge_witness :
  length (rows solo_merged) = length (rows solo)
  ∧ occurrences solo_merged jo_lee = 1 * 1.
Proof.
  destruct (C8_self_merge solo solo_merged) as (_ & Hocc & Hlen);
    [apply read_sheet_rectangular|reflexivity|].
  split.
  - apply Hlen. intros k. unfold occurrences, rows_with_key.
    etrans; [apply length_filter|]. vm_compute. lia.
  - apply (Hocc jo_lee).
Defined.

(** * Further properties of the reconciler *)

Lemma occurrences_pos (df : DataFrame) (x : list cell) :
  x ∈ rows df → 0 < occurrences df (key df x).
Proof.
  intros Hx. unfold occurrences, rows_with_key.
  pose proof (proj2 (list_elem_of_filter (λ row, key df row = key df x) (rows df) x)
                (conj eq_refl Hx)) as Hin.
  revert Hin. generalize (filter (λ row, key df row = key df x) (rows df)).
  intros [|y ys] Hin; [by apply elem_of_nil in Hin|simpl; lia].
Qed.

Lemma occurrences_zero (df : DataFrame) (k : list cell) :
  (∀ x, x ∈ rows df → key df x ≠ k) → occurrences df k = 0.
Proof.
  intros Hno. unfold occurrences, rows_with_key.
  rewrite filter_none; [done|]. apply Forall_forall. intros x Hx. by apply Hno.
Qed.

Section join_more.
Import pd.
Context (A B m : DataFrame).
Hypothesis HA : rectangular A.
Hypothesis HB : rectangular B.
Hypothesis Hm : merge (flag_loveadmin A) (flag_fa_club_portal B) key_columns = Ok m.

Local Abbreviation LA := (flag_loveadmin A).
Local Abbreviation FA := (flag_fa_club_portal B).
Local Abbreviation on := key_columns.

(** The fill step leaves the FA part of a row as it is, whatever stands
    before it. *)
Lemma fill_right_part_any p r :
  length p = length (columns LA) → r ∈ rows FA →
  drop (length (columns LA))
       (fill_flags (columns m) (p ++ drop_labels on (columns FA) r))
  = drop_labels on (columns FA) r.
Proof.
  intros Hlen Hr. apply list_eq. intros j. rewrite lookup_drop, fill_flags_lookup.
  rewrite (lookup_app_r p) by lia.
  replace (length (columns LA) + j - length p) with j by lia.
  destruct (columns m !! (length (columns LA) + j)) as [c|] eqn:Hi; [|done].
  case_bool_decide as Hc; [|done]. destruct Hc as [->| ->].
  - apply (in_loveadmin_position A B m Hm) in Hi. lia.
  - pose proof (right_row_flag A B m HB Hm p r _ Hlen Hr Hi) as Hcell.
    rewrite lookup_app_r in Hcell by lia.
    replace (length (columns LA) + j - length p) with j in Hcell by lia.
    by rewrite Hcell.
Qed.

Lemma lsuffix_ne_keys : ∀ k c : string, k ∈ on → c +:+ lsuffix ≠ k.
Proof. intros k c Hk. by apply lsuffix_ne_key. Qed.

Lemma in_left_block lcols rcols ks rrows width l r :
  r ∈ rrows → key_of rcols ks r = key_of lcols ks l →
  l ++ drop_labels ks rcols r ∈ left_block lcols rcols ks rrows width l.
Proof.
  intros Hr Hk. unfold left_block.
  pose proof (proj2 (list_elem_of_filter
    (λ r', key_of rcols ks r' = key_of lcols ks l) rrows r) (conj Hk Hr)) as Hin.
  revert Hin.
  generalize (filter (λ r', key_of rcols ks r' = key_of lcols ks l) rrows).
  intros [|r1 rs] Hin; [by apply elem_of_nil in Hin|].
  by apply (list_elem_of_fmap_2 (λ r', l ++ drop_labels ks rcols r')).
Qed.

Lemma left_row_in_join l :
  l ∈ rows LA → ∃ x, l ++ x ∈ rows m.
Proof.
  intros Hl. destruct (merge_inv LA FA on m Hm) as (_ & _ & ->).
  destruct (filter (λ r, key_of (columns FA) on r = key_of (columns LA) on l) (rows FA))
    as [|r0 rs] eqn:Hf.
  - exists (replicate (length (rlabels LA FA on)) NaN).
    apply elem_of_app. left. apply list_elem_of_bind. exists l. split; [|done].
    unfold left_block. rewrite Hf. apply list_elem_of_here.
  - exists (drop_labels on (columns FA) r0).
    apply elem_of_app. left. apply list_elem_of_bind. exists l. split; [|done].
    unfold left_block. rewrite Hf. apply list_elem_of_here.
Qed.

Lemma right_row_in_join r :
  r ∈ rows FA →
  ∃ p, length p = length (columns LA)
       ∧ p ++ drop_labels on (columns FA) r ∈ rows m
       ∧ key_of (columns m) on (p ++ drop_labels on (columns FA) r)
         = key_of (columns FA) on r.
Proof.
  intros Hr. pose proof (merge_inv LA FA on m Hm) as (_ & _ & Hrows).
  destruct (filter (λ l, key_of (columns LA) on l = key_of (columns FA) on r) (rows LA))
    as [|l0 ls] eqn:Hf.
  - exists (left_blank (columns LA) (columns FA) on r).
    split; [apply left_blank_length|]. split.
    + rewrite Hrows. apply elem_of_app. right.
      apply list_elem_of_fmap. exists r. split; [done|].
      apply list_elem_of_filter. split; [|done].
      apply Forall_forall. intros l Hl Hk.
      by apply (filter_nil_not_elem_of _ _ l Hf).
    + apply (key_of_right_only LA FA on m Hm lsuffix_ne_keys).
  - assert (l0 ∈ filter (λ l, key_of (columns LA) on l = key_of (columns FA) on r)
                        (rows LA)) as Hl0 by (rewrite Hf; apply list_elem_of_here).
    apply list_elem_of_filter in Hl0 as [Hk Hl0].
    exists l0. split; [by apply left_row_length|]. split.
    + rewrite Hrows. apply elem_of_app. left.
      apply list_elem_of_bind. exists l0. split; [|done].
      by apply in_left_block.
    + rewrite (key_of_left_row LA FA on m Hm lsuffix_ne_keys); [done|by apply left_row_length].
Qed.

(** The flags and the key of a row of the join, by its kind, after the fill
    step. *)
Lemma filled_row_flags row :
  in_loveadmin ∈ columns m → in_fa_club_portal ∈ columns m →
  row ∈ rows m →
  let k := key_of (columns m) on row in
  at_label (columns m) (fill_flags (columns m) row) in_loveadmin
    = Bool (bool_decide (0 < occurrences LA k))
  ∧ at_label (columns m) (fill_flags (columns m) row) in_fa_club_portal
    = Bool (bool_decide (0 < occurrences FA k)).
Proof.
  intros HinA HinB Hrow k. subst k.
  pose proof occurrences_pos as Hpos. pose proof occurrences_zero as Hzero.
  destruct (merge_row_kind A B m Hm row Hrow) as [l r Hl Hr Hk ->|l Hl Hno ->|r Hr Hno ->].
  - rewrite (key_of_left_row LA FA on m Hm lsuffix_ne_keys) by (by apply left_row_length).
    rewrite (fill_matched A B m HA HB Hm l r Hl Hr).
    rewrite !bool_decide_eq_true_2;
      [|rewrite <- Hk; by apply (Hpos FA)|by apply (Hpos LA)].
    split; apply at_label_cells; try done; intros i Hi.
    + by apply (left_row_flag A B m HA Hm).
    + apply (right_row_flag A B m HB Hm); [by apply left_row_length|done|done].
  - rewrite (key_of_left_row LA FA on m Hm lsuffix_ne_keys) by (by apply left_row_length).
    rewrite bool_decide_eq_true_2 by (by apply (Hpos LA)).
    rewrite bool_decide_eq_false_2 by (rewrite (Hzero FA); [lia|done]).
    split; apply at_label_cells; try done; intros i Hi.
    + erewrite fill_flags_flag_cell;
        [|done|by left|by apply (left_row_flag A B m HA Hm)]. done.
    + erewrite fill_flags_flag_cell;
        [|done|by right|
         apply (no_right_row_flag A B m Hm); [by apply left_row_length|done]]. done.
  - rewrite (key_of_right_only LA FA on m Hm lsuffix_ne_keys).
    rewrite bool_decide_eq_false_2 by (rewrite (Hzero LA); [lia|done]).
    rewrite bool_decide_eq_true_2 by (by apply (Hpos FA)).
    split; apply at_label_cells; try done; intros i Hi.
    + erewrite fill_flags_flag_cell;
        [|done|by left|by apply (no_left_row_flag A B m Hm)]. done.
    + erewrite fill_flags_flag_cell;
        [|done|by right|
         apply (right_row_flag A B m HB Hm); [apply left_blank_length|done|done]]. done.
Qed.

Lemma key_occurs_somewhere row :
  row ∈ rows m →
  0 < occurrences LA (key_of (columns m) on row)
  ∨ 0 < occurrences FA (key_of (columns m) on row).
Proof.
  intros Hrow.
  destruct (merge_row_kind A B m Hm row Hrow) as [l r Hl Hr Hk ->|l Hl Hno ->|r Hr Hno ->].
  - left. rewrite (key_of_left_row LA FA on m Hm lsuffix_ne_keys)
      by (by apply left_row_length).
    by apply (occurrences_pos LA).
  - left. rewrite (key_of_left_row LA FA on m Hm lsuffix_ne_keys)
      by (by apply left_row_length).
    by apply (occurrences_pos LA).
  - right. rewrite (key_of_right_only LA FA on m Hm lsuffix_ne_keys).
    by apply (occurrences_pos FA).
Qed.

End join_more.

(** X1. The flags say where a key occurs, for every row of the merged table,
    repeated keys included: In_LoveAdmin is true exactly when the row's key
    occurs in the LoveAdmin table (under its standardised names), and
    In_FA_Club_Portal exactly when it occurs in the FA Club Portal table.  In
    particular no row has both flags false. *)
Theorem X1_flags_mean_presence (A B out : DataFrame) (row : list cell) :
  rectangular A → rectangular B → merged_data A B = Ok out →
  row ∈ rows out →
  value out row in_loveadmin
    = Bool (bool_decide (0 < occurrences (pd.rename standard_names A) (key out row)))
  ∧ value out row in_fa_club_portal
    = Bool (bool_decide (0 < occurrences B (key out row)))
  ∧ ¬ (value out row in_loveadmin = Bool false
       ∧ value out row in_fa_club_portal = Bool false).
Proof.
  intros HA HB Hout Hrow.
  destruct (merged_data_inv A B out Hout) as (m & Hm & HinA & HinB & ->).
  cbn [rows] in Hrow. apply list_elem_of_fmap in Hrow as (r & -> & Hr).
  unfold value, key. cbn [columns]. rewrite key_of_fill_flags.
  destruct (filled_row_flags A B m HA HB Hm r HinA HinB Hr) as [H1 H2].
  rewrite (occurrences_flag_loveadmin A HA) in H1.
  rewrite (occurrences_flag_fa_club_portal B HB) in H2.
  split; [done|]. split; [done|].
  rewrite H1, H2. intros [[= Ha] [= Hb]].
  apply bool_decide_eq_false in Ha, Hb.
  rewrite <- (occurrences_flag_loveadmin A HA) in Ha.
  rewrite <- (occurrences_flag_fa_club_portal B HB) in Hb.
  destruct (key_occurs_somewhere A B m HA Hm r Hr); tauto.
Qed.

Lemma X1_flags_mean_presence_witness :
  value sample_merged [Str "Sam"; Str "Fox"; Str "U9"; Bool true; NaN; Bool false]
        in_fa_club_portal
  = Bool (bool_decide (0 < occurrences sample_B
       (key sample_merged [Str "Sam"; Str "Fox"; Str "U9"; Bool true; NaN; Bool false]))).
Proof.
  apply (X1_flags_mean_presence sample_A sample_B sample_merged);
    [apply read_sheet_rectangular|apply read_sheet_rectangular|reflexivity|].
  apply list_elem_of_further, list_elem_of_here.
Defined.

(** X2. The outer join loses no row: every row of the flagged LoveAdmin table
    is the beginning of some row of the merged table, and every row of the
    flagged FA Club Portal table, without its key cells, is the end of some
    row of the merged table that carries its key. *)
Theorem X2_no_row_lost (A B out : DataFrame) :
  rectangular A → rectangular B → merged_data A B = Ok out →
  (∀ l, l ∈ rows (flag_loveadmin A) →
     ∃ row, row ∈ rows out ∧ take (length l) row = l)
  ∧ (∀ r, r ∈ rows (flag_fa_club_portal B) →
     ∃ row, row ∈ rows out
       ∧ drop (length (columns (flag_loveadmin A))) row
         = pd.drop_labels key_columns (columns (flag_fa_club_portal B)) r
       ∧ key out row = key (flag_fa_club_portal B) r).
Proof.
  intros HA HB Hout.
  destruct (merged_data_inv A B out Hout) as (m & Hm & HinA & HinB & ->).
  cbn [rows]. split.
  - intros l Hl. destruct (left_row_in_join A B m Hm l Hl) as [x Hx].
    exists (fill_flags (columns m) (l ++ x)). split.
    + by apply list_elem_of_fmap_2.
    + by apply (fill_left_part A B m HA Hm).
  - intros r Hr. destruct (right_row_in_join A B m HA Hm r Hr) as (p & Hlen & Hin & Hk).
    exists (fill_flags (columns m) (p ++ pd.drop_labels key_columns
                                            (columns (flag_fa_club_portal B)) r)).
    split; [by apply list_elem_of_fmap_2|]. split.
    + by apply (fill_right_part_any A B m HB Hm).
    + unfold key at 1. cbn [columns]. by rewrite key_of_fill_flags.
Qed.

Lemma X2_no_row_lost_witness :
  ∃ row, row ∈ rows sample_merged
         ∧ take 4 row = [Str "Sam"; Str "Fox"; Str "U9"; Bool true].
Proof.
  destruct (X2_no_row_lost sample_A sample_B sample_merged) as [Hleft _];
    [apply read_sheet_rectangular|apply read_sheet_rectangular|reflexivity|].
  apply (Hleft [Str "Sam"; Str "Fox"; Str "U9"; Bool true]).
  vm_compute. apply list_elem_of_further, list_elem_of_here.
Defined.

Lemma count_fmap_label (g : string → string) (k : string) (cols : list string) :
  (∀ c, c ∈ cols → g c = k ↔ c = k) →
  length (filter (λ c, c = k) (g <$> cols)) = length (filter (λ c, c = k) cols).
Proof.
  induction cols as [|c cols IH]; intros Hg; [done|].
  rewrite fmap_cons, !filter_cons.
  pose proof (IH (λ c' Hc', Hg c' (list_elem_of_further _ _ _ Hc'))) as IH'.
  pose proof (Hg c (list_elem_of_here _ _)) as Hc.
  destruct (decide (g c = k)), (decide (c = k)); simpl; try tauto; by rewrite IH'.
Qed.

Lemma rsuffix_ne_key c k : k ∈ key_columns → c +:+ pd.rsuffix ≠ k.
Proof.
  unfold key_columns. rewrite !elem_of_cons, elem_of_nil.
  intros [->|[->|[]]]; by apply suffixed_ne.
Qed.

(** X3. The merged table has each key column once: "First names" and
    "Surname" label exactly one column each, whatever other columns the two
    sources share. *)
Theorem X3_key_columns_once (A B out : DataFrame) (k : string) :
  merged_data A B = Ok out → k ∈ key_columns →
  length (filter (λ c, c = k) (columns out)) = 1.
Proof.
  intros Hout Hk.
  destruct (merged_data_inv A B out Hout) as (m & Hm & _ & _ & ->). cbn [columns].
  destruct (merge_inv _ _ _ _ Hm) as (Hkeys & -> & _).
  rewrite filter_app, length_app.
  assert (length (filter (λ c, c = k) (rlabels (flag_loveadmin A)
                        (flag_fa_club_portal B) key_columns)) = 0) as ->.
  { rewrite filter_none; [done|]. apply Forall_forall. intros c Hc ->.
    unfold rlabels in Hc. apply list_elem_of_fmap in Hc as (c' & Hc' & Hin).
    symmetry in Hc'. apply renamer_inv in Hc' as [-> _];
      [|intros y; by apply rsuffix_ne_key].
    unfold right_labels in Hin. apply list_elem_of_filter in Hin as [Hnot _]. done. }
  unfold llabels. rewrite count_fmap_label.
  - pose proof (get_merge_keys_unique _ _ _ Hkeys k Hk) as Hle.
    destruct (get_merge_keys_inv _ _ _ Hkeys k Hk) as [Hin _].
    assert (k ∈ filter (λ c, c = k) (columns (flag_loveadmin A))) as Hin'
      by (by apply list_elem_of_filter).
    destruct (filter _ (columns (flag_loveadmin A))) as [|? [|? ?]];
      [by apply elem_of_nil in Hin'|done|simpl in Hle; lia].
  - intros c _. split.
    + intros Hc. by apply renamer_inv in Hc as [-> _];
        [|intros y; by apply lsuffix_ne_key].
    + intros ->. by apply key_not_renamed.
Qed.

Lemma X3_key_columns_once_witness :
  length (filter (λ c, c = "Surname") (columns sample_merged)) = 1.
Proof.
  apply (X3_key_columns_once sample_A sample_B sample_merged "Surname");
    [reflexivity|].
  apply list_elem_of_further, list_elem_of_here.
Defined.

(** X4. The scripts cannot take a table that already has the other side's
    flag column: when the FA Club Portal table has a column In_LoveAdmin, or
    the LoveAdmin table a column In_FA_Club_Portal (as a merged table written
    by an earlier run has), the suffixes move the flag labels away and the
    fill step raises; no merged table comes out. *)
Theorem X4_flag_label_clash (A B : DataFrame) :
  in_loveadmin ∈ columns B
  ∨ in_fa_club_portal ∈ columns (pd.rename standard_names A) →
  ∃ e, merged_data A B = Raise e.
Proof.
  intros Hclash. destruct (merged_data A B) as [out|e] eqn:Hout; [|by exists e].
  exfalso.
  destruct (merged_data_inv A B out Hout) as (m & Hm & HinA & HinB & _).
  rewrite (merge_columns_split A B m Hm) in HinA, HinB.
  destruct Hclash as [Hclash|Hclash].
  - apply elem_of_app in HinA as [Hl|Hr].
    + unfold llabels in Hl. apply list_elem_of_fmap in Hl as (c & Hc & Hin).
      symmetry in Hc. apply renamer_inv in Hc as [-> Hnot];
        [|intros y; apply suffix_ne_in_loveadmin].
      apply Hnot. unfold to_rename, right_labels.
      apply list_elem_of_filter. split; [|done].
      apply list_elem_of_filter. split; [apply in_loveadmin_not_key|].
      unfold flag_fa_club_portal. apply setitem_other_label; done.
    + apply list_elem_of_lookup in Hr as [j Hj].
      by apply (rlabels_not_in_loveadmin A B) in Hj.
  - apply elem_of_app in HinB as [Hl|Hr].
    + apply list_elem_of_lookup in Hl as [j Hj].
      by apply (llabels_not_in_fa_club_portal A B) in Hj.
    + unfold rlabels in Hr. apply list_elem_of_fmap in Hr as (c & Hc & Hin).
      symmetry in Hc. apply renamer_inv in Hc as [-> Hnot];
        [|intros y; apply suffix_ne_in_fa_club_portal].
      apply Hnot. unfold to_rename.
      apply list_elem_of_filter. split; [done|].
      unfold flag_loveadmin. apply setitem_other_label; done.
Qed.

Lemma X4_flag_label_clash_witness :
  ∃ e, merged_data sample_merged sample_B = Raise e.
Proof.
  apply X4_flag_label_clash. right. vm_compute.
  do 5 apply list_elem_of_further. apply list_elem_of_here.
Defined.



(** X6. The merged table is rectangular: every row has exactly one cell for
    each column. *)
Theorem X6_merged_table_rectangular (A B out : DataFrame) :
  rectangular A → rectangular B → merged_data A B = Ok out → rectangular out.
Proof.
  intros HA HB Hout.
  destruct (merged_data_inv A B out Hout) as (m & Hm & _ & _ & ->).
  pose proof (merge_rectangular A B m HA HB Hm) as Hrect.
  unfold rectangular in *. cbn [columns rows].
  apply Forall_fmap. eapply Forall_impl; [exact Hrect|].
  intros row Hrow. simpl. by rewrite fill_flags_length.
Qed.

Lemma X6_merged_table_rectangular_witness : rectangular sample_merged.
Proof.
  apply (X6_merged_table_rectangular sample_A sample_B);
    [apply read_sheet_rectangular|apply read_sheet_rectangular|reflexivity].
Defined.

Lemma setitem_rows_length df label v :
  length (rows (pd.setitem df label v)) = length (rows df).
Proof.
  unfold pd.setitem. destruct (pd.has_label _ _); simpl; by rewrite length_fmap.
Qed.

(** X7. When the two sources share no key, nothing is matched: the merged
    table has one row for each row of either source.  In particular an FA
    Club Portal table without data rows gives back the LoveAdmin rows, each
    beside empty cells. *)
Theorem X7_no_common_key (A B out : DataFrame) :
  rectangular A → rectangular B → merged_data A B = Ok out →
  (∀ k, occurrences (pd.rename standard_names A) k = 0 ∨ occurrences B k = 0) →
  length (rows out) = length (rows A) + length (rows B).
Proof.
  intros HA HB Hout Hdisj.
  assert (∀ k, occurrences (flag_loveadmin A) k = 0
               ∨ occurrences (flag_fa_club_portal B) k = 0) as Hdisj'.
  { intros k. rewrite (occurrences_flag_loveadmin A HA),
      (occurrences_flag_fa_club_portal B HB). apply Hdisj. }
  destruct (merged_data_inv A B out Hout) as (m & Hm & _ & _ & ->).
  cbn [rows]. rewrite length_fmap.
  destruct (merge_inv _ _ _ _ Hm) as (_ & _ & ->).
  rewrite length_app, length_fmap.
  rewrite (length_bind_const _ 1).
  - rewrite filter_all.
    + unfold flag_loveadmin, flag_fa_club_portal.
      rewrite !setitem_rows_length. simpl. lia.
    + apply Forall_forall. intros r Hr. apply Forall_forall. intros l Hl Hk.
      pose proof (occurrences_pos _ l Hl) as Hposl.
      pose proof (occurrences_pos _ r Hr) as Hposr.
      unfold key in Hposl, Hposr. rewrite Hk in Hposl.
      destruct (Hdisj' (pd.key_of (columns (flag_fa_club_portal B)) key_columns r)); lia.
  - apply Forall_forall. intros l Hl.
    rewrite (left_block_length _ _ _ _ l eq_refl).
    change (1 `max` occurrences (flag_fa_club_portal B) (key (flag_loveadmin A) l) = 1).
    pose proof (occurrences_pos _ l Hl) as Hposl.
    destruct (Hdisj' (key (flag_loveadmin A) l)) as [H0|H0]; [lia|by rewrite H0].
Qed.

Lemma X7_no_common_key_witness :
  ∃ out, merged_data sample_A (mkDataFrame ["First names"; "Surname"] []) = Ok out
         ∧ length (rows out) = 2 + 0.
Proof.
  destruct (merged_data sample_A (mkDataFrame ["First names"; "Surname"] []))
    as [out|e] eqn:Hout; [|by vm_compute in Hout].
  exists out. split; [done|].
  apply (X7_no_common_key sample_A (mkDataFrame ["First names"; "Surname"] []) out);
    [apply read_sheet_rectangular|by constructor|done|].
  intros k. by right.
Defined.

(** * Further properties of the runs *)

Lemma read_sheet_short n (s : sheet) :
  length s ≤ n → pd.read_sheet n s = mkDataFrame [] [].
Proof. intros Hlen. unfold pd.read_sheet. by rewrite drop_ge. Qed.

(** X8. A registration report with six rows or fewer leaves nothing after the
    six skipped rows: the FA Club Portal frame is empty, [pd.merge] does not
    find its first key and the run of [merge_datasets] ends in
    KeyError('First names'), with no file written. *)
Theorem X8_short_report (fs : gmap string sheet)
    (loveadmin_path fa_club_portal_path output_path : string) (sA sB : sheet) :
  fs !! loveadmin_path = Some sA → fs !! fa_club_portal_path = Some sB →
  length sB ≤ 6 →
  let r := run (merge_datasets loveadmin_path fa_club_portal_path output_path) fs in
  r.1 = Raise (KeyError "First names") ∧ files r.2 = fs.
Proof.
  intros HA HB Hlen r.
  pose proof (merge_datasets_run fs loveadmin_path fa_club_portal_path output_path) as Hrun.
  cbn zeta in Hrun. fold r in Hrun.
  unfold merged_from, load in Hrun. rewrite HA, HB in Hrun.
  rewrite (read_sheet_short 6 sB Hlen) in Hrun.
  assert (merged_data (pd.read_sheet 0 sA) (mkDataFrame [] [])
          = Raise (KeyError "First names")) as Hraise by reflexivity.
  unfold mbind, result_bind in Hrun.
  rewrite Hraise in Hrun. by destruct Hrun as (? & ? & _).
Qed.

Lemma X8_short_report_witness :
  (run (merge_datasets "a.xlsx" "bare.xlsx" "out.xlsx") more_files).1
  = Raise (KeyError "First names").
Proof.
  apply (X8_short_report more_files "a.xlsx" "bare.xlsx" "out.xlsx"
           sheet_A sheet_B_bare); [reflexivity|reflexivity|vm_compute; lia].
Defined.



(** X10. A click on "Merge Files" never lets an exception out of the handler
    and always ends in the error dialog: for every form and every file
    system the run returns normally, its last event is an error dialog, it
    shows no success dialog and it leaves every file as it was. *)
Theorem X10_gui_always_ends_in_error_dialog (f : form) (fs : gmap string sheet) :
  let r := run (validate_and_merge f) fs in
  r.1 = Ok ()
  ∧ (∃ m, last (trace r.2) = Some (ShowError "Error" m))
  ∧ (∀ title m, ShowInfo title m ∉ trace r.2)
  ∧ files r.2 = fs.
Proof.
  unfold_script.
  destruct (py_not _ || py_not _ || py_not _); cbn [files trace app fst snd];
    [by repeat split; eauto; intros t m Hp; no_event Hp|].
  destruct (fs !! loveadmin_file_var f) as [sA|]; cbn [files trace app fst snd];
    [|by repeat split; eauto; intros t m Hp; no_event Hp].
  destruct (fs !! fa_club_portal_file_var f) as [sB|]; cbn [files trace app fst snd];
    [|by repeat split; eauto; intros t m Hp; no_event Hp].
  destruct (negb _ || negb _); cbn [files trace app fst snd];
    [by repeat split; eauto; intros t m Hp; no_event Hp|].
  destruct (negb _ || negb _); cbn [files trace app fst snd];
    [by repeat split; eauto; intros t m Hp; no_event Hp|].
  destruct (pd.merge _ _ _) as [m|e]; cbn [files trace app fst snd];
    [|by repeat split; eauto; intros t m' Hp; no_event Hp].
  destruct (pd.fillna_column m in_loveadmin _) as [m1|e]; cbn [files trace app fst snd];
    [|by repeat split; eauto; intros t m' Hp; no_event Hp].
  destruct (pd.fillna_column m1 in_fa_club_portal _) as [m2|e] eqn:H2;
    cbn [files trace app fst snd];
    [|by repeat split; eauto; intros t m' Hp; no_event Hp].
  apply fillna_column_columns in H2 as [Hcols Hin].
  rewrite remaining_columns_unbound; cbn [files trace app fst snd].
  - by repeat split; eauto; intros t m' Hp; no_event Hp.
  - rewrite Hcols. intros Hnil. rewrite Hnil in Hin. by apply elem_of_nil in Hin.
Qed.

(** X11. The column check of the window comes after both reads and before
    the merge.  With three paths given and both files readable: when the
    LoveAdmin frame lacks "Last name" or "First name" the run is the two
    reads followed by the LoveAdmin ValueError; when it has both and the FA
    Club Portal frame lacks "First names" or "Surname", the two reads
    followed by the FA Club Portal ValueError; and the merge is started
    exactly when all four columns are there. *)
Theorem X11_gui_column_check (f : form) (fs : gmap string sheet) (sA sB : sheet) :
  loveadmin_file_var f ≠ EmptyString → fa_club_portal_file_var f ≠ EmptyString →
  output_file_var f ≠ EmptyString →
  fs !! loveadmin_file_var f = Some sA → fs !! fa_club_portal_file_var f = Some sB →
  let a := columns (pd.read_sheet 0 sA) in
  let b := columns (pd.read_sheet 6 sB) in
  let r := run (validate_and_merge f) fs in
  ("Last name" ∉ a ∨ "First name" ∉ a →
     trace r.2 = gui_rejected_trace (loveadmin_file_var f) (fa_club_portal_file_var f)
                   loveadmin_columns_missing)
  ∧ ("Last name" ∈ a → "First name" ∈ a → "First names" ∉ b ∨ "Surname" ∉ b →
     trace r.2 = gui_rejected_trace (loveadmin_file_var f) (fa_club_portal_file_var f)
                   fa_club_portal_columns_missing)
  ∧ (Log INFO (Text "Merging datasets...") ∈ trace r.2
     ↔ "Last name" ∈ a ∧ "First name" ∈ a ∧ "First names" ∈ b ∧ "Surname" ∈ b).
Proof.
  intros HpA HpB HpO HA HB a b r. subst r. unfold run, validate_and_merge.
  replace (py_not _ || py_not _ || py_not _) with false
    by (symmetry; unfold py_not; by rewrite !bool_decide_eq_false_2).
  unfold_script. rewrite HA. cbn [files trace app fst snd].
  rewrite HB. cbn [files trace app fst snd]. fold a b.
  destruct (pd.has_label a "Last name") eqn:H1;
    [apply has_label_true in H1|apply has_label_false in H1];
  (destruct (pd.has_label a "First name") eqn:H2;
    [apply has_label_true in H2|apply has_label_false in H2]);
  cbn [negb orb files trace app fst snd];
  try (split; [done|]; split; [tauto|]; split;
       [intros Hin; no_event Hin|tauto]).
  destruct (pd.has_label b "First names") eqn:H3;
    [apply has_label_true in H3|apply has_label_false in H3];
  (destruct (pd.has_label b "Surname") eqn:H4;
    [apply has_label_true in H4|apply has_label_false in H4]);
  cbn [negb orb files trace app fst snd];
  try (split; [tauto|]; split; [done|]; split;
       [intros Hin; no_event Hin|tauto]).
  split; [tauto|]. split; [tauto|]. split; [done|]. intros _.
  destruct (pd.merge _ _ _) as [m|e]; cbn [files trace app fst snd];
    [|do 6 apply list_elem_of_further; apply list_elem_of_here].
  destruct (pd.fillna_column m in_loveadmin _) as [m1|e]; cbn [files trace app fst snd];
    [|do 6 apply list_elem_of_further; apply list_elem_of_here].
  destruct (pd.fillna_column m1 in_fa_club_portal _) as [m2|e];
    cbn [files trace app fst snd];
    [|do 6 apply list_elem_of_further; apply list_elem_of_here].
  destruct (remaining_columns _ _) as [rest|e]; cbn [files trace app fst snd];
    [|do 6 apply list_elem_of_further; apply list_elem_of_here].
  destruct (pd.getitem_list _ _) as [m3|e]; cbn [files trace app fst snd];
    do 6 apply list_elem_of_further; apply list_elem_of_here.
Qed.

Lemma X11_gui_column_check_witness :
  trace (run (validate_and_merge (mkForm "std.xlsx" "b.xlsx" "out.xlsx")) more_files).2
  = gui_rejected_trace "std.xlsx" "b.xlsx" loveadmin_columns_missing.
Proof.
  apply (X11_gui_column_check (mkForm "std.xlsx" "b.xlsx" "out.xlsx") more_files
           sheet_A_standard sheet_B); try discriminate; try reflexivity.
  left. vm_compute. intros H.
  repeat (apply elem_of_cons in H as [H|H]; [discriminate H|]).
  by apply elem_of_nil in H.
Defined.

(** X12. A cancelled file dialog wipes the field: the handlers store whatever
    the dialog returns, so after a cancel (the empty path) in any of the
    three dialogs the next click on "Merge Files" is refused with the
    "select all required files" dialog, whatever had been chosen before, and
    no file is read. *)
Theorem X12_cancel_clears_the_field (f : form) (fs : gmap string sheet) :
  let refused :=
    (Ok (), mkWorld fs [ShowError "Error" (Text "Please select all required files.")]) in
  run (validate_and_merge (select_loveadmin_file EmptyString f)) fs = refused
  ∧ run (validate_and_merge (select_fa_club_portal_file EmptyString f)) fs = refused
  ∧ run (validate_and_merge (save_output_file EmptyString f)) fs = refused.
Proof.
  cbn zeta. unfold run, validate_and_merge; cbn [loveadmin_file_var
    fa_club_portal_file_var output_file_var select_loveadmin_file
    select_fa_club_portal_file save_output_file].
  change (py_not EmptyString) with true.
  by rewrite !orb_true_r.
Qed.

(** * configure_logging *)

Section logging_properties.
Import logging.


Lemma log_color_escape name :
  ∃ code, default reset (log_colors !! name) = ESC +:+ code.
Proof.
  destruct (log_colors !! name) as [c|] eqn:Hc; simpl; [|by eexists].
  unfold log_colors in Hc. apply elem_of_list_to_map_2 in Hc.
  repeat (apply elem_of_cons in Hc as [[= _ ->]|Hc]; [by eexists|]).
  by apply elem_of_nil in Hc.
Qed.

Lemma escaped_name_has_no_colour s :
  log_colors !! (ESC +:+ s) = None.
Proof.
  unfold log_colors. apply not_elem_of_list_to_map_1. simpl.
  intros Hin.
  repeat (apply elem_of_cons in Hin as [Hin|Hin]; [discriminate Hin|]).
  by apply elem_of_nil in Hin.
Qed.

Lemma string_length_app (s t : string) :
  String.length (s +:+ t) = String.length s + String.length t.
Proof. induction s as [|a s IH]; simpl; [done|]. by rewrite IH. Qed.

(** X14. The formatter colours the level name on the record itself, and the
    record is shared by the handlers: the first handler writes the level
    name between its colour code (the reset code for a level outside the
    five known ones) and the reset code, and every later handler finds no
    colour for the name already coloured and wraps it once more in reset
    codes.  With a log file and [force_console] both given, the file and the
    console therefore get different lines for one log call, and the file
    gets the escape codes too. *)
Theorem X14_level_coloured_once_per_handler (record : LogRecord) (path : string) :
  let colour := default reset (log_colors !! levelname record) in
  let once := colour +:+ levelname record +:+ reset in
  let twice := reset +:+ once +:+ reset in
  levelname (format record).2 = once
  ∧ levelname (format (format record).2).2 = twice
  ∧ (path ≠ EmptyString →
     callHandlers (configure_logging (Some path) true) record
     = [ (FileHandler path,
          formatMessage (mkLogRecord (asctime record) (filename record) (funcName record)
                           (lineno record) once (message record)));
         (StreamHandler,
          formatMessage (mkLogRecord (asctime record) (filename record) (funcName record)
                           (lineno record) twice (message record))) ])
  ∧ once ≠ twice.
Proof.
  intros colour once twice.
  assert (default reset (log_colors !! once) = reset) as Hnone.
  { subst once colour. destruct (log_color_escape (levelname record)) as [code ->].
    pose proof (escaped_name_has_no_colour (code +:+ levelname record +:+ reset)) as H.
    change (ESC +:+ (code +:+ levelname record +:+ reset))
      with ((ESC +:+ code) +:+ levelname record +:+ reset) in H.
    by rewrite H. }
  split; [done|]. split; [|split].
  - change (levelname (format (format record).2).2)
      with (default reset (log_colors !! once) +:+ once +:+ reset).
    by rewrite Hnone.
  - intros Hpath. unfold configure_logging, truthy.
    rewrite (bool_decide_eq_false_2 _ Hpath), orb_true_r. cbn [negb app default]. unfold id.
    change (callHandlers [FileHandler path; StreamHandler] record)
      with [ (FileHandler path, (format record).1);
             (StreamHandler,
              formatMessage
                (mkLogRecord (asctime record) (filename record) (funcName record)
                   (lineno record)
                   (default reset (log_colors !! once) +:+ once +:+ reset)
                   (message record))) ].
    rewrite Hnone. done.
  - subst twice. intros Heq.
    apply (f_equal String.length) in Heq.
    rewrite !string_length_app in Heq. simpl in Heq. lia.
Qed.

Lemma X14_level_coloured_once_per_handler_witness :
  callHandlers (configure_logging (Some "run.log") true)
    (mkLogRecord "2025-01-24 16:23:59" "create_team_images.py" "generate_images" 106
                 "INFO" "Starting image generation process")
  = [ (FileHandler "run.log",
       formatMessage (mkLogRecord "2025-01-24 16:23:59" "create_team_images.py"
                        "generate_images" 106
                        (ESC +:+ "[1;32m" +:+ "INFO" +:+ reset)
                        "Starting image generation process"));
      (StreamHandler,
       formatMessage (mkLogRecord "2025-01-24 16:23:59" "create_team_images.py"
                        "generate_images" 106
                        (reset +:+ (ESC +:+ "[1;32m" +:+ "INFO" +:+ reset) +:+ reset)
                        "Starting image generation process")) ].
Proof.
  apply (X14_level_coloured_once_per_handler
           (mkLogRecord "2025-01-24 16:23:59" "create_team_images.py" "generate_images" 106
                        "INFO" "Starting image generation process") "run.log").
  discriminate.
Defined.

End logging_properties.

(** * create_team_images.py: names, lines and files *)

Section image_strings.
Import images.

Lemma lstrip_head s :
  lstrip s = EmptyString ∨ ∃ c t, lstrip s = String c t ∧ isspace c = false.
Proof.
  induction s as [|c s IH]; simpl; [by left|].
  destruct (isspace c) eqn:Hc; [done|]. right. by exists c, s.
Qed.

Lemma rstrip_cons_nonspace c s :
  isspace c = false → rstrip (String c s) = String c (rstrip s).
Proof. intros Hc. simpl. rewrite Hc. by destruct (rstrip s). Qed.

Lemma rstrip_idempotent s : rstrip (rstrip s) = rstrip s.
Proof.
  induction s as [|c s IH]; [done|]. simpl.
  destruct (rstrip s) as [|a r] eqn:Hr.
  - destruct (isspace c) eqn:Hc; [done|]. simpl. by rewrite Hc.
  - simpl. simpl in IH. destruct (rstrip r) as [|a' r'] eqn:Hr'.
    + destruct (isspace a); by rewrite IH.
    + by rewrite IH.
Qed.

Lemma strip_idempotent s : strip (strip s) = strip s.
Proof.
  unfold strip. destruct (lstrip_head s) as [->|(c & t & -> & Hc)]; [done|].
  rewrite rstrip_cons_nonspace by done. simpl lstrip. rewrite Hc.
  rewrite rstrip_cons_nonspace by done. by rewrite rstrip_idempotent.
Qed.

Lemma contains_app c s t : contains c (s +:+ t) = contains c s || contains c t.
Proof.
  induction s as [|a s IH]; [done|]. simpl. by destruct (decide (a = c)).
Qed.

Lemma contains_lstrip c s : contains c (lstrip s) = true → contains c s = true.
Proof.
  induction s as [|a s IH]; [done|]. simpl.
  destruct (isspace a); [|done]. intros H. destruct (decide (a = c)); auto.
Qed.

Lemma contains_rstrip c s : contains c (rstrip s) = true → contains c s = true.
Proof.
  induction s as [|a s IH]; [done|]. simpl.
  destruct (rstrip s) as [|b r].
  - destruct (isspace a); [done|]. simpl. destruct (decide (a = c)); [done|done].
  - simpl. destruct (decide (a = c)); [done|]. intros H. by apply IH.
Qed.

Lemma contains_strip c s : contains c s = false → contains c (strip s) = false.
Proof.
  intros Hs. destruct (contains c (strip s)) eqn:H; [|done].
  apply contains_rstrip, contains_lstrip in H. congruence.
Qed.

Lemma split_once_spec c s :
  contains c s = true →
  s = (split_once c s).1 +:+ String c (split_once c s).2
  ∧ contains c (split_once c s).1 = false.
Proof.
  induction s as [|a s IH]; [done|]. simpl.
  destruct (decide (a = c)) as [->|Hne]; [done|].
  intros Hs. destruct (IH Hs) as [Heq Hno].
  destruct (split_once c s) as [before after]. simpl in *.
  split; [|by rewrite decide_False].
  change (String a s = String a (before +:+ String c after)). by rewrite <- Heq.
Qed.

(** X15. The two lines of a caption.  The first line is the stripped name up
    to its first "(", stripped again; it never contains a "(" and has no
    white space at either end.  There is a second line exactly when the
    stripped name contains a "(": it is "(" followed by the stripped rest,
    so that the name is the first part, the "(" and the rest. *)
Theorem X15_caption_lines (text : string) :
  let clean_text := strip text in
  let line1 := (lines_of clean_text).1 in
  let line2 := (lines_of clean_text).2 in
  contains "(" line1 = false
  ∧ strip line1 = line1
  ∧ nonempty line2 = contains "(" clean_text
  ∧ (contains "(" clean_text = false → line1 = clean_text ∧ line2 = EmptyString)
  ∧ (contains "(" clean_text = true →
     ∃ before after,
       clean_text = before +:+ "(" +:+ after
       ∧ contains "(" before = false
       ∧ line1 = strip before ∧ line2 = "(" +:+ strip after).
Proof.
  intros clean_text line1 line2. subst line1 line2. unfold lines_of.
  destruct (contains "(" clean_text) eqn:Hc.
  - destruct (split_once_spec "(" clean_text Hc) as [Heq Hno].
    destruct (split_once "(" clean_text) as [before after]. simpl in *.
    split; [by apply contains_strip|]. split; [apply strip_idempotent|].
    split; [done|]. split; [done|]. intros _. by exists before, after.
  - simpl. split; [done|]. split; [apply strip_idempotent|].
    split; [done|]. split; [done|]. done.
Qed.

Lemma replace_cons_ne old new a s :
  a ≠ old → replace old new (String a s) = String a (replace old new s).
Proof. intros Hne. simpl. by rewrite decide_False. Qed.

Lemma replace_cons_eq old new s :
  replace old new (String old s) = new +:+ replace old new s.
Proof. simpl. by rewrite decide_True. Qed.

Lemma file_stem_sanitise s : file_stem s = sanitise s.
Proof.
  unfold file_stem. induction s as [|a s IH]; [done|].
  cbn [sanitise].
  destruct (decide (a = " "%char)) as [->|H1].
  - rewrite replace_cons_eq.
    change ("_" +:+ replace " " "_" s) with (String "_" (replace " " "_" s)).
    rewrite !replace_cons_ne by done. by rewrite IH.
  - rewrite (replace_cons_ne " ") by done.
    destruct (decide (a = "("%char)) as [->|H2].
    + rewrite replace_cons_eq. by rewrite <- IH.
    + rewrite (replace_cons_ne "(") by done.
      destruct (decide (a = ")"%char)) as [->|H3].
      * rewrite replace_cons_eq. by rewrite <- IH.
      * rewrite (replace_cons_ne ")") by done. by rewrite IH.
Qed.

Lemma sanitise_clean c s :
  c = " "%char ∨ c = "("%char ∨ c = ")"%char → contains c (sanitise s) = false.
Proof.
  intros Hc. induction s as [|a s IH]; [done|]. simpl.
  repeat case_decide; simpl; try done.
  - rewrite decide_False; [done|]. destruct Hc as [->|[->| ->]]; done.
  - rewrite decide_False; [done|]. destruct Hc as [->|[->| ->]]; congruence.
Qed.

Lemma sanitise_idempotent s : sanitise (sanitise s) = sanitise s.
Proof.
  induction s as [|a s IH]; [done|]. simpl.
  repeat case_decide; simpl; try done.
  - by rewrite IH.
  - rewrite !decide_False by done. by rewrite IH.
Qed.

Lemma sanitise_keeps c s :
  c ≠ " "%char → c ≠ "("%char → c ≠ ")"%char → c ≠ "_"%char →
  contains c (sanitise s) = contains c s.
Proof.
  intros H1 H2 H3 H4. induction s as [|a s IH]; [done|]. cbn [sanitise contains].
  destruct (decide (a = " "%char)) as [->|Ha1].
  - cbn [contains]. rewrite !decide_False by done. exact IH.
  - destruct (decide (a = "("%char)) as [->|Ha2].
    + rewrite decide_False by done. exact IH.
    + destruct (decide (a = ")"%char)) as [->|Ha3].
      * rewrite decide_False by done. exact IH.
      * cbn [contains]. by rewrite IH.
Qed.

(** X16. The file name of a team.  The three replacements on the stripped
    name amount to one pass that turns each space into an underscore and
    drops each parenthesis, keeping everything else in place; the result has
    no space and no parenthesis, and naming a team by its own file stem
    gives the same stem again, so two such teams share one file. *)
Theorem X16_file_stem (clean_text : string) :
  file_stem clean_text = sanitise clean_text
  ∧ contains " " (file_stem clean_text) = false
  ∧ contains "(" (file_stem clean_text) = false
  ∧ contains ")" (file_stem clean_text) = false
  ∧ file_stem (file_stem clean_text) = file_stem clean_text
  ∧ ∀ output_dir,
      output_filename output_dir (file_stem clean_text)
      = output_filename output_dir clean_text.
Proof.
  rewrite !file_stem_sanitise.
  split; [done|]. split; [apply sanitise_clean; tauto|].
  split; [apply sanitise_clean; tauto|]. split; [apply sanitise_clean; tauto|].
  split; [apply sanitise_idempotent|].
  intros output_dir. unfold output_filename.
  by rewrite !file_stem_sanitise, sanitise_idempotent.
Qed.

(** X17. A slash in a team name is not cleaned away, and it decides where the
    image goes: a name that starts with "/" gives an absolute file name, so
    [os.path.join] drops the output directory and the image is written
    outside it; the output directory is the start of the file name only when
    the cleaned name does not start with "/". *)
Theorem X17_slash_in_team_name (output_dir clean_text : string) :
  let name := file_stem clean_text +:+ ".png" in
  contains "/" (file_stem clean_text) = contains "/" clean_text
  ∧ (startswith "/" clean_text = true →
     output_filename output_dir clean_text = name)
  ∧ (startswith "/" name = false →
     ∃ sep, (sep = EmptyString ∨ sep = "/")
            ∧ output_filename output_dir clean_text = output_dir +:+ sep +:+ name).
Proof.
  intros name. subst name. rewrite file_stem_sanitise. split; [|split].
  - by apply sanitise_keeps.
  - unfold output_filename, path_join. rewrite file_stem_sanitise.
    destruct clean_text as [|a s]; [done|]. simpl.
    intros Ha%bool_decide_eq_true. subst a. done.
  - unfold output_filename, path_join. rewrite file_stem_sanitise.
    intros ->. destruct (negb (nonempty output_dir) || endswith "/" output_dir).
    + exists EmptyString. split; [by left|done].
    + exists "/". split; [by right|done].
Qed.

Lemma X17_slash_in_team_name_witness :
  output_filename "output_images" "/tmp/U7 Blue" = "/tmp/U7_Blue.png".
Proof.
  apply (X17_slash_in_team_name "output_images" "/tmp/U7 Blue"). reflexivity.
Defined.

(** X18. The teams read from a teams file: each line is stripped, lines that
    strip to nothing are left out, and the order is kept.  So every team is
    non-empty and stripped already, and the [strip] of [generate_images]
    changes none of them. *)
Theorem X18_teams_of_lines (lines : list string) :
  teams_of_lines lines = filter (λ t, t ≠ EmptyString) (strip <$> lines)
  ∧ Forall (λ t, t ≠ EmptyString ∧ strip t = t) (teams_of_lines lines).
Proof.
  assert (teams_of_lines lines = filter (λ t, t ≠ EmptyString) (strip <$> lines)) as Heq.
  { unfold teams_of_lines. rewrite filter_fmap. f_equal.
    apply list_filter_iff. intros line. unfold nonempty.
    rewrite negb_true_iff, bool_decide_eq_false. done. }
  split; [done|]. rewrite Heq. apply Forall_forall. intros t Ht.
  apply list_elem_of_filter in Ht as [Hne Ht].
  apply list_elem_of_fmap in Ht as (line & -> & _).
  split; [done|apply strip_idempotent].
Qed.

End image_strings.

(** * create_team_images.py: the layout and the runs *)

Section image_layout.
Import images.
Local Open Scope Z_scope.

(** X19. The picture of a team.  The canvas has the width of the base image
    and is higher by the padding, which is at least 400 and at least 50 more
    than the text block; the base image sits unchanged at the top left, and
    the text block lies in the added band, centred in it to within a pixel
    and at least 25 pixels from its top and its bottom.  One text is drawn
    when the name has no "(", two when it has. *)
Theorem X19_picture (f : font) (fill_color : string) (base_image : image)
    (image_width image_height : Z) (clean_text : string) :
  let line1 := (lines_of clean_text).1 in
  let line2 := (lines_of clean_text).2 in
  let l := layout_of f image_width image_height line1 line2 in
  let top := text_start_y l - image_height in
  let bottom := new_image_height l - (text_start_y l + total_text_height l) in
  final_image_of f fill_color base_image image_width image_height clean_text
  = Canvas image_width (image_height + padding l) base_image
      (mkText (line1_x l) (text_start_y l) line1 fill_color
       :: (if contains "(" clean_text
           then [mkText (line2_x l) (line2_y l) line2 fill_color] else []))
  ∧ 400 ≤ padding l ∧ total_text_height l + 50 ≤ padding l
  ∧ 25 ≤ top ∧ 25 ≤ bottom ∧ 0 ≤ bottom - top ≤ 1
  ∧ line2_y l + line2_height l = text_start_y l + total_text_height l.
Proof.
  intros line1 line2 l top bottom.
  assert (nonempty line2 = contains "(" clean_text) as Hline2.
  { subst line2. unfold lines_of. destruct (contains "(" clean_text); [|done].
    by destruct (split_once "(" clean_text). }
  split.
  - unfold final_image_of. fold line1 line2 in l |- *.
    destruct (lines_of clean_text) as [l1 l2] eqn:Hl. simpl in line1, line2.
    subst line1 line2. fold l. by rewrite <- Hline2.
  - subst top bottom l. unfold layout_of.
    cbn [padding total_text_height new_image_height text_start_y line2_y line2_height
         line1_height].
    unfold DEFAULT_PADDING, DEFAULT_LINE_SPACING.
    destruct (nonempty line2);
      repeat split; try (Z.div_mod_to_equations; lia).
Qed.

(** X20. Each line is centred across the image.  A line no wider than the
    image lies within it, with left and right margins that differ by at most
    one pixel; a line wider than the image starts left of the canvas, as the
    script never shrinks the font. *)
Theorem X20_line_centred (f : font) (image_width image_height : Z)
    (line1 line2 : string) :
  let l := layout_of f image_width image_height line1 line2 in
  (0 ≤ line1_width l ≤ image_width →
     0 ≤ line1_x l ∧ line1_x l + line1_width l ≤ image_width
     ∧ 0 ≤ (image_width - (line1_x l + line1_width l)) - line1_x l ≤ 1)
  ∧ (image_width < line1_width l → line1_x l < 0)
  ∧ (0 ≤ line2_width l ≤ image_width →
     0 ≤ line2_x l ∧ line2_x l + line2_width l ≤ image_width
     ∧ 0 ≤ (image_width - (line2_x l + line2_width l)) - line2_x l ≤ 1)
  ∧ (image_width < line2_width l → line2_x l < 0).
Proof.
  intros l. subst l. unfold layout_of.
  cbn [line1_x line1_width line2_x line2_width].
  repeat split; intros; Z.div_mod_to_equations; lia.
Qed.

End image_layout.

Section image_runs.
Import images.
Context (env : environment).

Lemma process_team_step f fill_color base_image image_width image_height output_dir
    text s :
  process_team env f fill_color base_image image_width image_height output_dir text s
  = let path := output_filename output_dir (strip text) in
    let line := mkLogLine INFO ("Processing text: " +:+ text) None in
    match save env path with
    | Some e => (inl (Exception e),
                 mkState (saved s) (made s) (handlers s) (log s ++ [line]))
    | None =>
        (inr (),
         mkState
           (saved s ++ [(path, final_image_of f fill_color base_image image_width
                                 image_height (strip text))])
           (made s) (handlers s)
           ((log s ++ [line]) ++ [mkLogLine INFO ("Saved: " +:+ path) None]))
    end.
Proof.
  unfold process_team, logger, image_save, mbind, action_bind.
  cbn [saved made handlers log]. by destruct (save env _).
Qed.

Lemma for_each_cons (body : string → action unit) x l s :
  for_each body (x :: l) s
  = match body x s with
    | (inr _, s') => for_each body l s'
    | (inl e, s') => (inl e, s')
    end.
Proof. done. Qed.

Lemma for_each_process_team f fill_color base_image image_width image_height output_dir
    teams_list s :
  let r := for_each (process_team env f fill_color base_image image_width image_height
                       output_dir) teams_list s in
  r.1 = match save_failure env output_dir teams_list with
        | None => inr ()
        | Some e => inl (Exception e)
        end
  ∧ saved r.2 = saved s ++ planned f fill_color base_image image_width image_height
                             output_dir (savable env output_dir teams_list)
  ∧ made r.2 = made s ∧ handlers r.2 = handlers s.
Proof.
  cbn zeta. revert s. induction teams_list as [|text rest IH]; intros s.
  - simpl. by rewrite app_nil_r.
  - rewrite for_each_cons, process_team_step. cbn zeta. cbn [savable save_failure].
    destruct (save env (output_filename output_dir (strip text))) as [e|].
    + simpl. by rewrite app_nil_r.
    + destruct (IH (mkState
          (saved s ++ [(output_filename output_dir (strip text),
                        final_image_of f fill_color base_image image_width image_height
                          (strip text))])
          (made s) (handlers s)
          ((log s ++ [mkLogLine INFO ("Processing text: " +:+ text) None])
           ++ [mkLogLine INFO ("Saved: " +:+ output_filename output_dir (strip text))
                 None]))) as (H1 & H2 & H3 & H4).
      rewrite H1, H2, H3, H4. cbn [saved made handlers log planned fmap list_fmap].
      by rewrite <- app_assoc.
Qed.

Lemma savable_all output_dir teams_list :
  save_failure env output_dir teams_list = None →
  savable env output_dir teams_list = teams_list.
Proof.
  induction teams_list as [|text rest IH]; [done|]. simpl.
  destruct (save env _); [done|]. intros H. by rewrite IH.
Qed.

End image_runs.

Section generate_images_runs.
Import images.
Context (env : environment).
Context (base_image_path output_dir : string) (teams_list : list string).
Context (font_path : string) (font_size : Z) (fill_color : string).

Lemma generate_images_unfold :
  generate_images env base_image_path output_dir teams_list font_path font_size fill_color
  = (logger INFO "Starting image generation process";;
     except_Exception
       (validate_file env base_image_path "input image";;
        validate_file env font_path "font file";;
        size ← call (image_open env base_image_path);
        logger DEBUG ("Base image loaded with size: " +:+ pretty size.1 +:+ "x"
                      +:+ pretty size.2);;
        f ← except_IOError
              (f ← call (truetype env font_path font_size);
               logger DEBUG ("Font loaded: " +:+ font_path +:+ " with size "
                             +:+ pretty font_size);;
               mret f)
              (logger ERROR "Failed to load font. Using default font.";;
               mret (load_default env));
        os_makedirs env output_dir;;
        logger DEBUG ("Output directory ensured: " +:+ output_dir);;
        for_each (process_team env f fill_color
                    (Opened base_image_path size.1 size.2) size.1 size.2 output_dir)
                 teams_list)
       (λ e, logger_exception "An error occurred: " e)).
Proof. reflexivity. Qed.

Lemma last_snoc {A} (l : list A) (x : A) : last (l ++ [x]) = Some x.
Proof. induction l as [|y [|z l] IH]; done. Qed.

(** What a run of [generate_images] comes to, case by case. *)
Lemma generate_images_run s :
  let r := generate_images env base_image_path output_dir teams_list font_path font_size
             fill_color s in
  if negb (isfile env base_image_path) || negb (isfile env font_path) then
    r.1 = inl (SystemExit 1) ∧ saved r.2 = saved s ∧ made r.2 = made s
  else
    match image_open env base_image_path with
    | inl e => swallowed s r e
    | inr size =>
        match font_used env font_path font_size with
        | inl e => swallowed s r e
        | inr f =>
            match makedirs env output_dir with
            | Some e => swallowed s r e
            | None =>
                r.1 = inr ()
                ∧ saved r.2
                  = saved s ++ planned f fill_color (Opened base_image_path size.1 size.2)
                                 size.1 size.2 output_dir
                                 (savable env output_dir teams_list)
                ∧ made r.2 = made s ++ [output_dir]
                ∧ ∀ e, save_failure env output_dir teams_list = Some e →
                       last (log r.2)
                       = Some (mkLogLine ERROR "An error occurred: " (Some e))
            end
        end
    end.
Proof.
  cbn zeta. rewrite generate_images_unfold. unfold swallowed, font_used.
  unfold except_Exception, except_IOError, validate_file, call, throw, os_makedirs,
    logger, logger_exception, mbind, action_bind, mret, action_ret.
  cbn [saved made handlers log].
  destruct (isfile env base_image_path); cbn [negb orb saved made handlers log fst snd];
    [|done].
  destruct (isfile env font_path); cbn [negb orb saved made handlers log fst snd];
    [|done].
  destruct (image_open env base_image_path) as [e|size];
    cbn [saved made handlers log fst snd]; [by rewrite last_snoc|].
  destruct (truetype env font_path font_size) as [[what|what]|f];
    cbn [saved made handlers log fst snd]; [|by rewrite last_snoc|].
  - destruct (makedirs env output_dir) as [e|];
      cbn [saved made handlers log fst snd]; [by rewrite last_snoc|].
    match goal with |- context [for_each ?b teams_list ?s'] =>
      destruct (for_each_process_team env (load_default env) fill_color
                  (Opened base_image_path size.1 size.2) size.1 size.2 output_dir
                  teams_list s') as (H1 & H2 & H3 & _);
      destruct (for_each b teams_list s') as [[[code|e]|[]] s''] eqn:Hloop
    end; cbn [fst snd saved made handlers log] in *;
      destruct (save_failure env output_dir teams_list) as [e'|]; try done.
    injection H1 as ->. repeat split; try done.
    intros e0 [= <-]. by rewrite last_snoc.
  - destruct (makedirs env output_dir) as [e|];
      cbn [saved made handlers log fst snd]; [by rewrite last_snoc|].
    match goal with |- context [for_each ?b teams_list ?s'] =>
      destruct (for_each_process_team env f fill_color
                  (Opened base_image_path size.1 size.2) size.1 size.2 output_dir
                  teams_list s') as (H1 & H2 & H3 & _);
      destruct (for_each b teams_list s') as [[[code|e]|[]] s''] eqn:Hloop
    end; cbn [fst snd saved made handlers log] in *;
      destruct (save_failure env output_dir teams_list) as [e'|]; try done.
    injection H1 as ->. repeat split; try done.
    intros e0 [= <-]. by rewrite last_snoc.
Qed.

End generate_images_runs.

(** * create_team_images.py: what a run leaves behind *)

Section image_outcomes.
Import images.


(** X21. [generate_images] lets no exception of the libraries escape.  It
    ends in [sys.exit(1)] exactly when the base image or the font file is
    missing, and then has saved no image and made no directory; in every
    other case it returns normally, whatever failed on the way. *)
Theorem X21_exit_only_for_a_missing_file (env : environment)
    (base_image_path output_dir : string)
    (teams_list : list string) (font_path : string) (font_size : Z) (fill_color : string)
    (s : state) :
  let r := generate_images env base_image_path output_dir teams_list font_path font_size
             fill_color s in
  let missing := isfile env base_image_path = false ∨ isfile env font_path = false in
  (r.1 = inl (SystemExit 1) ↔ missing)
  ∧ (r.1 = inr () ↔ ¬ missing)
  ∧ (missing → saved r.2 = saved s ∧ made r.2 = made s).
Proof.
  intros r missing. subst missing.
  pose proof (generate_images_run env base_image_path output_dir teams_list font_path
                font_size fill_color s) as Hrun.
  cbn zeta in Hrun. fold r in Hrun.
  destruct (isfile env base_image_path), (isfile env font_path);
    cbn [negb orb] in Hrun;
    try (destruct Hrun as (Hr & Hsaved & Hmade); rewrite Hr;
         split; [split; [by auto|done]|];
         split; [split; [done|intros H; exfalso; apply H; by auto]|done]).
  assert (r.1 = inr ()) as Hr.
  { unfold swallowed in Hrun.
    destruct (image_open env base_image_path) as [e|size]; [apply Hrun|].
    destruct (font_used env font_path font_size) as [e|f]; [apply Hrun|].
    destruct (makedirs env output_dir) as [e|]; apply Hrun. }
  rewrite Hr. split; [split; [done|by intros [|]]|].
  split; [split; [by intros _ [|]|done]|by intros [|]].
Qed.





(** X24. An exception on the way to the loop is swallowed.  When opening the
    base image or making the output directory raises, the run logs the
    exception as an ERROR, returns normally and has saved no image; the
    caller cannot tell this run from a successful one by its result. *)
Theorem X24_failure_before_the_loop_is_swallowed (env : environment)
    (base_image_path output_dir : string)
    (teams_list : list string) (font_path : string) (font_size : Z) (fill_color : string)
    (s : state) (e : error) :
  isfile env base_image_path = true →
  isfile env font_path = true →
  image_open env base_image_path = inl e
  ∨ (∃ size f, image_open env base_image_path = inr size
               ∧ font_used env font_path font_size = inr f
               ∧ makedirs env output_dir = Some e) →
  let r := generate_images env base_image_path output_dir teams_list font_path font_size
             fill_color s in
  r.1 = inr () ∧ saved r.2 = saved s ∧ made r.2 = made s
  ∧ last (log r.2) = Some (mkLogLine ERROR "An error occurred: " (Some e)).
Proof.
  intros Hbase Hfont Hcase r.
  pose proof (generate_images_run env base_image_path output_dir teams_list font_path
                font_size fill_color s) as Hrun.
  cbn zeta in Hrun. fold r in Hrun.
  rewrite Hbase, Hfont in Hrun. cbn [negb orb] in Hrun.
  destruct Hcase as [Hopen|(size & f & Hopen & Hused & Hdirs)].
  - rewrite Hopen in Hrun. exact Hrun.
  - rewrite Hopen, Hused, Hdirs in Hrun. exact Hrun.
Qed.

Lemma X24_failure_before_the_loop_is_swallowed_witness :
  (generate_images unreadable_image_environment DEFAULT_INPUT_FILE DEFAULT_OUTPUT_DIR
     default_teams DEFAULT_FONT_PATH DEFAULT_FONT_SIZE DEFAULT_TEXT_COLOUR
     empty_state).1 = inr ().
Proof.
  apply (X24_failure_before_the_loop_is_swallowed unreadable_image_environment
           DEFAULT_INPUT_FILE DEFAULT_OUTPUT_DIR default_teams DEFAULT_FONT_PATH
           DEFAULT_FONT_SIZE DEFAULT_TEXT_COLOUR empty_state
           (OtherError "cannot identify image file")
           eq_refl eq_refl (or_introl eq_refl)).
Defined.


End image_outcomes.
